(** * charmed-openstack-upgrader: the deployment entity model, the OSD
    release reconciliation routine and the plan generator, embedded in Rocq.

    Part I holds the definitions, one module per Python module of the
    repository.  Part II holds the properties proved about them. *)

From Stdlib Require Import Ascii String.
From stdpp Require Import gmap strings list sorting.

Local Open Scope string_scope.
#[local] Set Warnings "-register-all".

(** * Part I: definitions *)

(** ** Python built-ins the code relies on *)
Module Py.

(** [sep.join(l)] *)
Fixpoint join (sep : string) (l : list string) : string :=
  match l with
  | [] => ""
  | [x] => x
  | x :: rest => x +:+ sep +:+ join sep rest
  end.

(** [sorted(l)] on a list of [str]: ascending in the lexicographic order
    of the characters' code points. *)
Definition sorted (l : list string) : list string := merge_sort String.le l.

(** [s.split(c)] for a separator of one character.  The accumulator [cur]
    holds the characters of the current field, last one first. *)
Fixpoint split_go (c : ascii) (cur : string) (s : string) : list string :=
  match s with
  | EmptyString => [String.rev cur]
  | String x rest =>
      if decide (x = c) then String.rev cur :: split_go c "" rest
      else split_go c (String x cur) rest
  end.
Definition split (c : ascii) (s : string) : list string := split_go c "" s.

(** A string is the UTF-8 encoding of a Python [str]: a character is one
    byte below 128, or a lead byte followed by continuation bytes.

    The characters [str.strip()] removes are those Python counts as
    whitespace.  Those of one byte: U+0009 to U+000D, U+001C to U+001F and
    the space. *)
Definition is_whitespace (x : ascii) : bool :=
  match x with
  | "009" | "010" | "011" | "012" | "013"
  | "028" | "029" | "030" | "031" | " " => true
  | _ => false
  end%char.

(** Those of two bytes: U+0085 (C2 85) and U+00A0 (C2 A0). *)
Definition is_whitespace2 (x y : ascii) : bool :=
  Nat.eqb (nat_of_ascii x) 194
  && (Nat.eqb (nat_of_ascii y) 133 || Nat.eqb (nat_of_ascii y) 160).

(** Those of three bytes: U+1680 (E1 9A 80), U+2000 to U+200A (E2 80 80 to
    E2 80 8A), U+2028, U+2029 and U+202F (E2 80 A8, A9 and AF), U+205F
    (E2 81 9F) and U+3000 (E3 80 80). *)
Definition is_whitespace3 (x y z : ascii) : bool :=
  let a := nat_of_ascii x in
  let b := nat_of_ascii y in
  let c := nat_of_ascii z in
  Nat.eqb a 225 && Nat.eqb b 154 && Nat.eqb c 128
  || Nat.eqb a 226 && Nat.eqb b 128
     && (Nat.leb 128 c && Nat.leb c 138
         || Nat.eqb c 168 || Nat.eqb c 169 || Nat.eqb c 175)
  || Nat.eqb a 226 && Nat.eqb b 129 && Nat.eqb c 159
  || Nat.eqb a 227 && Nat.eqb b 128 && Nat.eqb c 128.

(** The removal of the leading whitespace, given what whitespace of two and
    of three bytes is. *)
Fixpoint lstrip_by (w2 : ascii → ascii → bool) (w3 : ascii → ascii → ascii → bool)
    (s : string) : string :=
  match s with
  | EmptyString => ""
  | String x rest =>
      if is_whitespace x then lstrip_by w2 w3 rest
      else
        match rest with
        | EmptyString => s
        | String y rest2 =>
            if w2 x y then lstrip_by w2 w3 rest2
            else
              match rest2 with
              | EmptyString => s
              | String z rest3 => if w3 x y z then lstrip_by w2 w3 rest3 else s
              end
        end
  end.

(** [s.lstrip()] *)
Definition lstrip (s : string) : string := lstrip_by is_whitespace2 is_whitespace3 s.

(** [s.rstrip()]: the same removal on the string read from its end, where
    the bytes of a character come last one first. *)
Definition rstrip (s : string) : string :=
  String.rev
    (lstrip_by (λ y x, is_whitespace2 x y) (λ z y x, is_whitespace3 x y z)
       (String.rev s)).

(** [s.strip()] *)
Definition strip (s : string) : string := rstrip (lstrip s).

(** [len(s)], the number of characters: the bytes that are not continuation
    bytes (10xxxxxx). *)
Definition is_continuation (x : ascii) : bool :=
  match x with
  | Ascii _ _ _ _ _ _ b6 b7 => b7 && negb b6
  end.
Fixpoint len (s : string) : nat :=
  match s with
  | EmptyString => 0
  | String x rest => (if is_continuation x then 0 else 1) + len rest
  end.

(** [sub in s] on two [str]: [sub] occurs in [s] as a substring. *)
Fixpoint contains (sub s : string) : bool :=
  String.prefix sub s ||
  match s with
  | EmptyString => false
  | String _ rest => contains sub rest
  end.

(** [s.count(c)] for a character [c]. *)
Fixpoint count (c : ascii) (s : string) : nat :=
  match s with
  | EmptyString => 0
  | String x rest => (if decide (x = c) then 1 else 0) + count c rest
  end.

End Py.

(** ** cou.utils.openstack *)
Module Openstack.

(** Modelled from the spec: the class [OpenStackRelease] of
    [cou/utils/openstack.py] is not among the sources.  The spec's data
    model makes a release an identifier of a fixed, externally supplied
    sequence, totally ordered by its rank; the codename is only the label
    of that rank.  A release is therefore its rank in the sequence. *)
Record OpenStackRelease := Release { index : nat }.

Global Instance release_eq_dec : EqDecision OpenStackRelease.
Proof. solve_decision. Defined.

Global Instance release_countable : Countable OpenStackRelease :=
  inj_countable' index Release (λ r, match r with Release _ => eq_refl end).

(** Modelled from the spec: the comparison of [OpenStackRelease], which the
    spec makes the total order by rank. *)
Definition release_ltb (r1 r2 : OpenStackRelease) : bool :=
  Nat.ltb (index r1) (index r2).

(** Modelled from the spec: the attribute [codename] of [OpenStackRelease],
    the label of the release in the sequence [codenames]. *)
Definition codename (codenames : list string) (r : OpenStackRelease) : string :=
  default "" (codenames !! index r).

(** Modelled from the spec: the property [next_release] of
    [OpenStackRelease], the successor in the sequence, which is undefined
    ([None]) at its end. *)
Definition next_release (codenames : list string) (r : OpenStackRelease)
  : option OpenStackRelease :=
  if decide (S (index r) < length codenames) then Some (Release (S (index r)))
  else None.

(** Modelled from the spec: the property [previous_release] of
    [OpenStackRelease], the predecessor in the sequence, which is undefined
    ([None]) at its start. *)
Definition previous_release (r : OpenStackRelease) : option OpenStackRelease :=
  match index r with
  | O => None
  | S i => Some (Release i)
  end.

(** [max(releases)] of Python: the first element no later one exceeds. *)
Definition max_release (first : OpenStackRelease) (rest : list OpenStackRelease)
  : OpenStackRelease :=
  foldl (λ best r, if release_ltb best r then r else best) first rest.

End Openstack.

(** ** cou/apps/app.py *)
Module App.
Import Openstack.

(** The values a unit's dictionary holds: a workload version string, an
    [OpenStackRelease], or [None]. *)
Inductive value :=
| VNone
| VStr (s : string)
| VRelease (r : OpenStackRelease).

Global Instance value_eq_dec : EqDecision value.
Proof. solve_decision. Defined.

Definition value_encode (v : value) : unit + (string + OpenStackRelease) :=
  match v with
  | VNone => inl tt
  | VStr s => inr (inl s)
  | VRelease r => inr (inr r)
  end.
Definition value_decode (x : unit + (string + OpenStackRelease)) : value :=
  match x with
  | inl _ => VNone
  | inr (inl s) => VStr s
  | inr (inr r) => VRelease r
  end.
Global Instance value_countable : Countable value :=
  inj_countable' value_encode value_decode
    (λ v, match v with VNone | VStr _ | VRelease _ => eq_refl end).

(** [d.get(key)], which is [None] for a missing key. *)
Definition dict_get (d : gmap string value) (key : string) : value :=
  default VNone (d !! key).

(** juju's [UnitStatus] and [ApplicationStatus], with the attributes the
    class reads.  [status_units] is the [units] dictionary in iteration
    order. *)
Record UnitStatus := { workload_version : string }.
Record ApplicationStatus := {
  status_charm : string;
  charm_channel : string;
  status_series : string;
  status_units : list (string * UnitStatus);
}.

(** The dataclass. [config] maps an option name to its dictionary. *)
Record Application := {
  name : string;
  status : ApplicationStatus;
  config : gmap string (gmap string string);
  model_name : string;
  charm : string;
  charm_origin : string;
  os_origin : string;
  channel : string;
  units : gmap string (gmap string value);
}.

(** What the module's logger records. *)
Inductive log_record :=
| WarnNoCompatibleVersion (app_name workload : string)
| WarnNoOrigin (app_name : string)
| ErrorMismatchedVersions (app_name : string) (os_versions : gset value).

Inductive exn :=
| MismatchedOpenStackVersions
| KeyError (key : string).

Inductive result (A : Type) :=
| Ok (a : A)
| Raise (e : exn).
Global Arguments Ok {A} a.
Global Arguments Raise {A} e.

(** [self.status.units[unit]] *)
Fixpoint status_lookup (l : list (string * UnitStatus)) (unit_name : string)
  : option UnitStatus :=
  match l with
  | [] => None
  | (k, v) :: rest => if decide (k = unit_name) then Some v else status_lookup rest unit_name
  end.

(** [_get_os_origin]: the first of the two known options that is set. *)
Fixpoint get_os_origin_go (app_name : string) (cfg : gmap string (gmap string string))
    (origins : list string) : string * list log_record :=
  match origins with
  | [] => ("", [WarnNoOrigin app_name])
  | origin :: rest =>
      match cfg !! origin with
      | Some d =>
          if decide (d = ∅) then get_os_origin_go app_name cfg rest
          else (default "" (d !! "value"), [])
      | None => get_os_origin_go app_name cfg rest
      end
  end.
Definition _get_os_origin (app_name : string) (cfg : gmap string (gmap string string))
  : string * list log_record :=
  get_os_origin_go app_name cfg ["openstack-origin"; "source"].

Section post_init.
(** The two collaborators of the constructor:
    [cou.utils.juju_utils.extract_charm_name_from_url] and
    [OpenStackCodenameLookup.lookup]. *)
Variable extract_charm_name_from_url : string → string.
Variable lookup : string → string → list OpenStackRelease.

(** [self.units[unit][key] = v] on the [defaultdict(dict)]. *)
Definition units_set (us : gmap string (gmap string value))
    (unit_name key : string) (v : value) : gmap string (gmap string value) :=
  <[unit_name := <[key := v]> (default ∅ (us !! unit_name))]> us.

(** One turn of the loop over [self.status.units.keys()]. *)
Definition post_init_unit (app_name charm_name : string)
    (st : ApplicationStatus) (unit_name : string)
    (acc : gmap string (gmap string value) * list log_record)
  : result (gmap string (gmap string value) * list log_record) :=
  match status_lookup (status_units st) unit_name with
  | None => Raise (KeyError unit_name)
  | Some ustatus =>
      let wv := workload_version ustatus in
      let us := units_set acc.1 unit_name "workload_version" (VStr wv) in
      match lookup charm_name wv with
      | first :: rest =>
          Ok (units_set us unit_name "os_version" (VRelease (max_release first rest)),
              acc.2)
      | [] =>
          Ok (units_set us unit_name "os_version" VNone,
              (acc.2 ++ [WarnNoCompatibleVersion app_name wv])%list)
      end
  end.

Fixpoint post_init_loop (app_name charm_name : string) (st : ApplicationStatus)
    (keys : list string) (acc : gmap string (gmap string value) * list log_record)
  : result (gmap string (gmap string value) * list log_record) :=
  match keys with
  | [] => Ok acc
  | k :: rest =>
      match post_init_unit app_name charm_name st k acc with
      | Ok acc' => post_init_loop app_name charm_name st rest acc'
      | Raise e => Raise e
      end
  end.

(** [__post_init__], run on the fields the dataclass constructor was
    given; it yields the initialised application and the log. *)
Definition post_init (a : Application) : result (Application * list log_record) :=
  let charm_name := extract_charm_name_from_url (status_charm (status a)) in
  let origin := default "" (head (Py.split ":" (status_charm (status a)))) in
  let '(os_orig, log0) := _get_os_origin (name a) (config a) in
  match post_init_loop (name a) charm_name (status a)
          (status_units (status a)).*1 (units a, log0) with
  | Raise e => Raise e
  | Ok (us, log) =>
      Ok ({| name := name a; status := status a; config := config a;
             model_name := model_name a; charm := charm_name;
             charm_origin := origin; os_origin := os_orig;
             channel := charm_channel (status a); units := us |}, log)
  end.
End post_init.

(** What the constructor leaves in [self.units] for a unit whose status
    reports the workload version [wv], given the releases [compatible] the
    lookup returned for it: the version itself, and either the highest of
    the compatible releases or [None] together with a logged warning. *)
Definition unit_resolved (app_name wv : string) (compatible : list OpenStackRelease)
    (entry : option (gmap string value)) (log : list log_record) : Prop :=
  ∃ d, entry = Some d
    ∧ d !! "workload_version" = Some (VStr wv)
    ∧ match compatible with
      | [] => d !! "os_version" = Some VNone
              ∧ WarnNoCompatibleVersion app_name wv ∈ log
      | _ :: _ => ∃ r, d !! "os_version" = Some (VRelease r)
                   ∧ r ∈ compatible
                   ∧ ∀ r', r' ∈ compatible → (index r' ≤ index r)%nat
      end.

(** The value [__post_init__] stores under ["os_version"] for a unit, given
    the releases the lookup found compatible with its workload version. *)
Definition resolved_os_version (compatible : list OpenStackRelease) : value :=
  match compatible with
  | [] => VNone
  | first :: rest => VRelease (max_release first rest)
  end.

(** The warning [__post_init__] logs for a unit, if any. *)
Definition unit_warning (app_name wv : string) (compatible : list OpenStackRelease)
  : list log_record :=
  match compatible with
  | [] => [WarnNoCompatibleVersion app_name wv]
  | _ :: _ => []
  end.

(** [__eq__] and [__hash__]; [hash] is Python's hash of a [str]. *)
Definition eq (self other : Application) : bool :=
  bool_decide (name other = name self) && bool_decide (charm other = charm self).

Definition hash (str_hash : string → Z) (self : Application) : Z :=
  str_hash (name self +:+ charm self).

(** The property [series]. *)
Definition series (self : Application) : string := status_series (status self).

(** The set comprehension of [current_os_release]. *)
Definition os_versions (self : Application) : gset value :=
  list_to_set ((λ unit_values, dict_get unit_values "os_version")
                 <$> (map_to_list (units self)).*2).

(** The property [current_os_release]: its outcome and what it logs. *)
Definition current_os_release (self : Application) : result value * list log_record :=
  match elements (os_versions self) with
  | [] => (Ok VNone, [])
  | [v] => (Ok v, [])
  | _ => (Raise MismatchedOpenStackVersions,
          [ErrorMismatchedVersions (name self) (os_versions self)])
  end.

End App.

(** ** cou/utils/app_utils.py *)
Module AppUtils.

(** [cou.utils.juju_utils.Unit], with the attribute read here. *)
Record Unit := { unit_name : string }.

(** What [json.loads] returns. An object is the list of its items, in the
    order of the document. *)
Inductive json :=
| JNull
| JBool (b : bool)
| JNum (n : Z)
| JStr (s : string)
| JArr (l : list json)
| JObj (items : list (string * json)).

(** [d.get(key)] on the items of an object. *)
Fixpoint items_get (items : list (string * json)) (key : string) : option json :=
  match items with
  | [] => None
  | (k, v) :: rest => if decide (k = key) then Some v else items_get rest key
  end.

(** Python's truth value of a decoded document: [not j] is its negation. *)
Definition truthy (j : json) : bool :=
  match j with
  | JNull => false
  | JBool b => b
  | JNum n => bool_decide (n ≠ 0%Z)
  | JStr s => bool_decide (s ≠ "")
  | JArr l => bool_decide (l ≠ [])
  | JObj items => bool_decide (items ≠ [])
  end.

(** [j != s] for a string [s]: values of another type always differ. *)
Definition differs_from_str (j : json) (s : string) : bool :=
  match j with
  | JStr s' => bool_decide (s' ≠ s)
  | _ => true
  end.

(** Why [RunUpgradeError] was raised. *)
Inductive upgrade_failure :=
| NoOsdReleaseInformation (unit : string)
| MismatchedOsdReleases (osd_release_output : json)
| UnknownCephRelease (release supported : string).

Inductive exn :=
| RunUpgradeError (why : upgrade_failure)
| CommandRunFailed
| JSONDecodeError
| KeyError (key : string)
| AttributeError
| TypeError
| ValueError
| IndexError.

Inductive result (A : Type) :=
| Ok (a : A)
| Raise (e : exn).
Global Arguments Ok {A} a.
Global Arguments Raise {A} e.

(** A call of [model.run_on_unit]. *)
Record call := {
  call_unit : string;
  call_command : string;
  call_timeout : Z;
}.

Section with_model.
(** The collaborators: the Juju model, whose state is a [World] and
    which answers a command with the result dictionary or fails; the JSON
    decoder; and the constant [CEPH_RELEASES] of [cou.utils.openstack]. *)
Context {World : Type}.
Variable model : call → World → result (gmap string string) * World.
Variable json_loads : string → option json.
Variable CEPH_RELEASES : list string.

(** The coroutines run against the world and the record of the calls
    issued so far; an exception keeps both. *)
Definition M (A : Type) : Type := World * list call → result A * (World * list call).

Definition ret {A} (a : A) : M A := λ st, (Ok a, st).
Definition raise {A} (e : exn) : M A := λ st, (Raise e, st).
Definition bind {A B} (m : M A) (k : A → M B) : M B :=
  λ st, match m st with
        | (Ok a, st') => k a st'
        | (Raise e, st') => (Raise e, st')
        end.

Local Notation "'do' x <- c ;; k" := (bind c (λ x, k))
  (at level 10, x name, c at level 99, k at level 200).

(** [await model.run_on_unit(unit_name=.., command=.., timeout=..)] *)
Definition run_on_unit (unit command : string) (timeout : Z) : M (gmap string string) :=
  λ '(w, calls),
    let c := {| call_unit := unit; call_command := command; call_timeout := timeout |} in
    let '(r, w') := model c w in
    (r, (w', (calls ++ [c])%list)).

(** [json.loads(result["Stdout"])] *)
Definition loads_stdout (res : gmap string string) : M json :=
  match res !! "Stdout" with
  | None => raise (KeyError "Stdout")
  | Some out =>
      match json_loads out with
      | None => raise JSONDecodeError
      | Some j => ret j
      end
  end.

(** [j.get(key, fallback)], defined on objects only. *)
Definition json_get (j : json) (key : string) (fallback : json) : M json :=
  match j with
  | JObj items => ret (default fallback (items_get items key))
  | _ => raise AttributeError
  end.

(** [upgrade_packages] *)
Definition upgrade_packages (unit : string) (packages_to_hold : option (list string))
  : M () :=
  let dpkg_opts :=
    "-o Dpkg::Options::=--force-confnew -o Dpkg::Options::=--force-confdef" in
  let command :=
    "apt-get update && apt-get dist-upgrade " +:+ dpkg_opts
    +:+ " -y && apt-get autoremove -y" in
  let command :=
    match packages_to_hold with
    | Some (p :: ps) =>
        let packages := Py.join " " (p :: ps) in
        "apt-mark hold " +:+ packages +:+ " && " +:+ command
        +:+ " ; apt-mark unhold " +:+ packages
    | _ => command
    end in
  do _ <- run_on_unit unit command 600 ;;
  ret ().

(** [_get_required_osd_release] *)
Definition _get_required_osd_release (unit : string) : M json :=
  let check_command := "ceph osd dump -f json" in
  do check_option_result <- run_on_unit unit check_command 600 ;;
  do doc <- loads_stdout check_option_result ;;
  json_get doc "require_osd_release" (JStr "").

(** [_get_current_osd_release] *)
Definition _get_current_osd_release (unit : string) : M string :=
  let check_command := "ceph versions -f json" in
  do check_osd_result <- run_on_unit unit check_command 600 ;;
  do doc <- loads_stdout check_osd_result ;;
  do osd_release_output <- json_get doc "osd" JNull ;;
  if negb (truthy osd_release_output) then
    raise (RunUpgradeError (NoOsdReleaseInformation unit))
  else
    match osd_release_output with
    | JNull | JBool _ | JNum _ => raise TypeError
    | JStr s => if decide (1 < Py.len s)%nat
                then raise (RunUpgradeError (MismatchedOsdReleases osd_release_output))
                else raise AttributeError
    | JArr l => if decide (1 < length l)%nat
                then raise (RunUpgradeError (MismatchedOsdReleases osd_release_output))
                else raise AttributeError
    | JObj items =>
        if decide (1 < length items)%nat
        then raise (RunUpgradeError (MismatchedOsdReleases osd_release_output))
        else
          match items with
          | [] => raise ValueError
          | (osd_release_key, _) :: _ =>
              match Py.split " " osd_release_key !! 4%nat with
              | None => raise IndexError
              | Some field =>
                  let current_osd_release := Py.strip field in
                  let ceph_releases := Py.join ", " CEPH_RELEASES in
                  if negb (Py.contains current_osd_release ceph_releases) then
                    raise (RunUpgradeError
                             (UnknownCephRelease current_osd_release ceph_releases))
                  else ret current_osd_release
              end
          end
    end.

(** [set_require_osd_release_option] *)
Definition set_require_osd_release_option (unit : string) : M () :=
  do current_require_osd_release <- _get_required_osd_release unit ;;
  do current_running_osd_release <- _get_current_osd_release unit ;;
  if differs_from_str current_require_osd_release current_running_osd_release then
    let set_command :=
      "ceph osd require-osd-release " +:+ current_running_osd_release in
    do _ <- run_on_unit unit set_command 600 ;;
    ret ()
  else ret ().

(** The three calls the routine can issue on [unit]. *)
Definition dump_call (unit : string) : call :=
  {| call_unit := unit; call_command := "ceph osd dump -f json"; call_timeout := 600 |}.
Definition versions_call (unit : string) : call :=
  {| call_unit := unit; call_command := "ceph versions -f json"; call_timeout := 600 |}.
Definition set_call (unit release : string) : call :=
  {| call_unit := unit;
     call_command := "ceph osd require-osd-release " +:+ release;
     call_timeout := 600 |}.


(** The versions query is answered from the world [w] by an object that
    holds the document [osd] under ["osd"], [None] standing for a missing
    key, and leaves the world [w1]. *)
Definition versions_answered (unit : string) (w : World) (osd : json) (w1 : World)
  : Prop :=
  ∃ res out items,
    model (versions_call unit) w = (Ok res, w1)
    ∧ res !! "Stdout" = Some out
    ∧ json_loads out = Some (JObj items)
    ∧ default JNull (items_get items "osd") = osd.

(** The release the key of a [ceph versions] entry names. *)
Definition release_of_key (key : string) : option string :=
  Py.strip <$> (Py.split " " key !! 4%nat).
End with_model.

(** [stringify_units] *)
Definition stringify_units (units : list Unit) : string :=
  let sorted_unit_names := Py.sorted (unit_name <$> units) in
  Py.join ", " sorted_unit_names.

End AppUtils.

(** ** cou.steps *)
Module Steps.
Import Openstack.

Inductive config_value :=
| CBool (b : bool)
| CStr (s : string).

(** The deferred remote action a step holds, as the call that builds the
    coroutine in [tests/unit/steps/test_plan.py]. *)
Inductive action :=
| WaitForActiveIdle (timeout : Z) (apps : option (list string))
    (idle_period : option Z) (raise_on_blocked : bool)
| UpgradeCharm (app channel : string) (switch : option string)
| SetApplicationConfig (app key : string) (v : config_value)
| UpgradePackages (unit : string) (packages_to_hold : option (list string))
| CheckUpgrade (app : string) (target : OpenStackRelease)
| Backup.

(** The classes of steps the tests build. *)
Inductive step_kind :=
| UpgradePlan
| ApplicationUpgradePlan
| PreUpgradeStep
| UpgradeStep
| PostUpgradeStep
| UnitUpgradeStep.

(** Modelled from the spec: the step classes of [cou/steps/__init__.py]
    are not among the sources.  The spec's data model makes a step a node
    of a tree with a description, an optional deferred action, a parallel
    flag and an ordered list of child steps, in one of several variants. *)
Inductive Step := mk_step {
  kind : step_kind;
  description : string;
  parallel : bool;
  coro : option action;
  sub_steps : list Step;
}.

(** [step.add_step(child)] and [step.add_steps(children)] append in call
    order. *)
Definition add_steps (self : Step) (children : list Step) : Step :=
  mk_step (kind self) (description self) (parallel self) (coro self)
    (sub_steps self ++ children)%list.
Definition add_step (self : Step) (child : Step) : Step := add_steps self [child].

(** The deferred actions of a tree, the node's own first. *)
Fixpoint actions (s : Step) : list action :=
  match s with
  | mk_step _ _ _ c children =>
      (match c with Some a => [a] | None => [] end
       ++ (fix go (l : list Step) : list action :=
             match l with
             | [] => []
             | x :: rest => actions x ++ go rest
             end) children)%list
  end.

Definition is_wait (a : action) : bool :=
  match a with
  | WaitForActiveIdle _ _ _ _ => true
  | _ => false
  end.

(** The wait-for-idle actions of a tree. *)
Definition wait_actions (s : Step) : list action :=
  List.filter is_wait (actions s).

(** No node of the tree holds both a deferred action and child steps. *)
Fixpoint leaf_or_group (s : Step) : bool :=
  match s with
  | mk_step _ _ _ c children =>
      match c, children with
      | Some _, _ :: _ => false
      | _, _ => true
      end
      && (fix go (l : list Step) : bool :=
            match l with
            | [] => true
            | x :: rest => leaf_or_group x && go rest
            end) children
  end.

End Steps.

(** ** cou.steps.plan, with the plans expected by
    tests/unit/steps/test_plan.py *)
Module Plan.
Import Openstack Steps.

(** Modelled from the spec: the exceptions of [cou/exceptions.py], which is
    not among the sources, that section 7 of the spec lists for the
    planning and the tests import; [Other] is any exception besides them. *)
Inductive exn :=
| HaltUpgradePlanGeneration
| HighestReleaseAchieved
| NoTargetError (message : string)
| OutOfSupportRange
| Other (message : string).

Global Instance exn_eq_dec : EqDecision exn.
Proof. solve_decision. Defined.

Inductive result (A : Type) :=
| Ok (a : A)
| Raise (e : exn).
Global Arguments Ok {A} a.
Global Arguments Raise {A} e.

(** Modelled from the spec: [OpenStackApplication] of [cou/apps/base.py] and
    [Model] of [cou/utils/juju_utils.py] are not among the sources.  They
    hold the attributes the expected plans of the tests read, and the role
    of the application of section 4.4 of the spec. *)
Record OpenStackApplication := {
  name : string;
  charm : string;
  is_subordinate : bool;
  origin_setting : string;
  units : list AppUtils.Unit;
}.
Record Model := { model_name : string }.

(** [str(release)] for a release that may be [None]. *)
Definition release_str (codenames : list string) (r : option OpenStackRelease)
  : string :=
  match r with
  | Some r => codename codenames r
  | None => "None"
  end.

(** The leaf that upgrades the packages of a unit. *)
Definition unit_step (unit : AppUtils.Unit) : Step :=
  mk_step UnitUpgradeStep
    ("Upgrade software packages on unit " +:+ AppUtils.unit_name unit)
    false (Some (UpgradePackages (AppUtils.unit_name unit) None)) [].

Section planning.
(** The canonical sequence of codenames and, per Ubuntu series, the
    releases supported on it, oldest first: the tables of
    [cou.utils.openstack]. *)
Variable codenames : list string.
Variable supported : gmap string (list OpenStackRelease).

(** Modelled from the spec: [determine_upgrade_target] of
    [cou/steps/plan.py] is not among the sources, only its tests are.
    Following section 4.1 of the spec it fails with [NoTargetError] when
    the release or the series is unset, with [HighestReleaseAchieved]
    when the release is the last one supported on the series, with
    [OutOfSupportRange] when the pair is not in the supported window,
    and otherwise returns the next release of the canonical sequence.
    The messages, and [NoTargetError] for a release without successor,
    are those of the tests. *)
Definition determine_upgrade_target
    (current_os_release : option OpenStackRelease) (current_series : option string)
  : result OpenStackRelease :=
  match current_os_release, current_series with
  | None, _ =>
      Raise (NoTargetError
               ("Cannot determine the current OS release in the cloud. "
                +:+ "Is this a valid OpenStack cloud?"))
  | Some _, None =>
      Raise (NoTargetError
               ("Cannot determine the current Ubuntu series in the cloud. "
                +:+ "Is this a valid OpenStack cloud?"))
  | Some release, Some series =>
      let window := default [] (supported !! series) in
      if decide (last window = Some release) then Raise HighestReleaseAchieved
      else if decide (release ∈ window) then
        match next_release codenames release with
        | Some target => Ok target
        | None =>
            Raise (NoTargetError
                     ("Cannot find target to upgrade. Current minimum OS release is '"
                      +:+ codename codenames release
                      +:+ "'. Current Ubuntu series is '" +:+ series +:+ "'."))
        end
      else Raise OutOfSupportRange
  end.

(** The supported window is well formed: on every series the releases
    are listed in strictly ascending rank and belong to the canonical
    sequence. *)
Definition window_wf : Prop :=
  ∀ series window,
    supported !! series = Some window →
    StronglySorted lt (index <$> window)
    ∧ Forall (λ r, index r < length codenames)%nat window.

(** [generate_expected_upgrade_plan_principal] *)
Definition generate_expected_upgrade_plan_principal
    (app : OpenStackApplication) (target : OpenStackRelease) (model : Model) : Step :=
  let expected_plan :=
    mk_step ApplicationUpgradePlan
      ("Upgrade plan for '" +:+ name app +:+ "' to " +:+ codename codenames target)
      false None [] in
  let wait_step :=
    if decide (charm app ∈ ["rabbitmq-server"; "ceph-mon"; "keystone"]) then
      mk_step PostUpgradeStep
        ("Wait 1800s for model " +:+ model_name model +:+ " to reach the idle state.")
        false (Some (WaitForActiveIdle 1800 None None false)) []
    else
      mk_step PostUpgradeStep
        ("Wait 300s for app " +:+ name app +:+ " to reach the idle state.")
        false (Some (WaitForActiveIdle 300 (Some [name app]) None false)) [] in
  let upgrade_packages :=
    mk_step PreUpgradeStep
      ("Upgrade software packages of '" +:+ name app
       +:+ "' from the current APT repositories")
      true None [] in
  let upgrade_packages :=
    foldl (λ acc unit,
             add_step acc
               (mk_step UnitUpgradeStep
                  ("Upgrade software packages on unit " +:+ AppUtils.unit_name unit)
                  false (Some (UpgradePackages (AppUtils.unit_name unit) None)) []))
      upgrade_packages (units app) in
  let previous := release_str codenames (previous_release target) in
  let upgrade_steps := [
    upgrade_packages;
    mk_step PreUpgradeStep
      ("Refresh '" +:+ name app +:+ "' to the latest revision of '"
       +:+ previous +:+ "/stable'")
      false (Some (UpgradeCharm (name app) (previous +:+ "/stable") None)) [];
    mk_step UpgradeStep
      ("Change charm config of '" +:+ name app
       +:+ "' 'action-managed-upgrade' to False.")
      false (Some (SetApplicationConfig (name app) "action-managed-upgrade"
                     (CBool false))) [];
    mk_step UpgradeStep
      ("Upgrade '" +:+ name app +:+ "' to the new channel: '"
       +:+ codename codenames target +:+ "/stable'")
      false (Some (UpgradeCharm (name app) (codename codenames target +:+ "/stable")
                     None)) [];
    mk_step UpgradeStep
      ("Change charm config of '" +:+ name app +:+ "' '" +:+ origin_setting app
       +:+ "' to 'cloud:focal-" +:+ codename codenames target +:+ "'")
      false (Some (SetApplicationConfig (name app) (origin_setting app)
                     (CStr ("cloud:focal-" +:+ codename codenames target)))) [];
    wait_step;
    mk_step PostUpgradeStep
      ("Check if the workload of '" +:+ name app +:+ "' has been upgraded")
      false (Some (CheckUpgrade (name app) target)) []
  ] in
  add_steps expected_plan upgrade_steps.

(** [generate_expected_upgrade_plan_subordinate] *)
Definition generate_expected_upgrade_plan_subordinate
    (app : OpenStackApplication) (target : OpenStackRelease) (model : Model) : Step :=
  let expected_plan :=
    mk_step ApplicationUpgradePlan
      ("Upgrade plan for '" +:+ name app +:+ "' to " +:+ codename codenames target)
      false None [] in
  let previous := release_str codenames (previous_release target) in
  let upgrade_steps := [
    mk_step PreUpgradeStep
      ("Refresh '" +:+ name app +:+ "' to the latest revision of '"
       +:+ previous +:+ "/stable'")
      false (Some (UpgradeCharm (name app) (previous +:+ "/stable") None)) [];
    mk_step UpgradeStep
      ("Upgrade '" +:+ name app +:+ "' to the new channel: '"
       +:+ codename codenames target +:+ "/stable'")
      false (Some (UpgradeCharm (name app) (codename codenames target +:+ "/stable")
                     None)) []
  ] in
  add_steps expected_plan upgrade_steps.

(** Modelled from the spec: [generate_upgrade_plan] of the application
    classes of [cou/apps] is not among the sources.  Following section
    4.4 of the spec a subordinate application gets the refresh and the
    switch only and a principal one the seven steps; these are the two
    plans the tests expect of it. *)
Definition generate_upgrade_plan
    (app : OpenStackApplication) (target : OpenStackRelease) (model : Model) : Step :=
  if is_subordinate app
  then generate_expected_upgrade_plan_subordinate app target model
  else generate_expected_upgrade_plan_principal app target model.

(** The refresh and the switch of an application's plan. *)
Definition refresh_step (app : OpenStackApplication) (channel : string) : Step :=
  mk_step PreUpgradeStep
    ("Refresh '" +:+ name app +:+ "' to the latest revision of '" +:+ channel +:+ "'")
    false (Some (UpgradeCharm (name app) channel None)) [].
Definition switch_step (app : OpenStackApplication) (channel : string) : Step :=
  mk_step UpgradeStep
    ("Upgrade '" +:+ name app +:+ "' to the new channel: '" +:+ channel +:+ "'")
    false (Some (UpgradeCharm (name app) channel None)) [].
End planning.

Section aggregate.
(** The method [app.generate_upgrade_plan(target)], which the tests of
    [create_upgrade_group] replace by a mock that returns a plan or
    raises. *)
Variable generate : OpenStackApplication → OpenStackRelease → result Step.

(** Modelled from the spec: the loop of [create_upgrade_group], below, over
    the selected applications. *)
Fixpoint create_upgrade_group_loop (apps : list OpenStackApplication)
    (target : OpenStackRelease) (group : Step) : result Step :=
  match apps with
  | [] => Ok group
  | app :: rest =>
      match generate app target with
      | Ok app_upgrade_plan =>
          create_upgrade_group_loop rest target (add_step group app_upgrade_plan)
      | Raise HaltUpgradePlanGeneration =>
          create_upgrade_group_loop rest target group
      | Raise e => Raise e
      end
  end.

(** Modelled from the spec: [create_upgrade_group] of [cou/steps/plan.py]
    is not among the sources, only its tests are.  Following section 4.4
    of the spec it builds a sequential group holding the plan of each
    selected application in order; a Halt raised for an application
    leaves that application out and any other exception leaves the
    function. *)
Definition create_upgrade_group (apps : list OpenStackApplication)
    (target : OpenStackRelease) (description : string)
    (filter_function : OpenStackApplication → bool) : result Step :=
  create_upgrade_group_loop (List.filter filter_function apps) target
    (mk_step UpgradePlan description false None []).

(** Modelled from the spec: [Analysis] of [cou/steps/analyze.py] is not
    among the sources.  It holds what the test gives it, and the current
    release and series of the deployment that section 4.1 of the spec
    resolves the target from. *)
Record Analysis := {
  model : Model;
  apps_control_plane : list OpenStackApplication;
  apps_data_plane : list OpenStackApplication;
  current_cloud_os_release : option OpenStackRelease;
  current_cloud_series : option string;
}.

Definition verify_idle_step : Step :=
  mk_step PreUpgradeStep "Verify that all OpenStack applications are in idle state"
    false (Some (WaitForActiveIdle 11 None (Some 10%Z) true)) [].
Definition backup_step : Step :=
  mk_step PreUpgradeStep "Backup mysql databases" false (Some Backup) [].

Variable codenames : list string.
Variable supported : gmap string (list OpenStackRelease).

(** Modelled from the spec: [generate_plan] of [cou/steps/plan.py] is
    not among the sources, only its test is.  Following section 4.4 of
    the spec the plan of the deployment starts with the verification
    that the deployment is idle and with the backup, and goes on with
    the group of the principal applications of the control plane and
    the group of its subordinate ones; the data plane is left out.  The
    spec gives the parsed command line [args], which the test passes, no
    part in this. *)
Definition generate_plan {Namespace : Type}
    (analysis_result : Analysis) (args : Namespace) : result Step :=
  match determine_upgrade_target codenames supported
          (current_cloud_os_release analysis_result)
          (current_cloud_series analysis_result) with
  | Raise e => Raise e
  | Ok target =>
      let plan :=
        mk_step UpgradePlan
          ("Upgrade cloud from '"
           +:+ release_str codenames (current_cloud_os_release analysis_result)
           +:+ "' to '" +:+ codename codenames target +:+ "'")
          false None [] in
      let plan := add_step plan verify_idle_step in
      let plan := add_step plan backup_step in
      match create_upgrade_group (apps_control_plane analysis_result) target
              "Control Plane principal(s) upgrade plan"
              (λ app, negb (is_subordinate app)) with
      | Raise e => Raise e
      | Ok control_plane_principals =>
          match create_upgrade_group (apps_control_plane analysis_result) target
                  "Control Plane subordinate(s) upgrade plan"
                  (λ app, is_subordinate app) with
          | Raise e => Raise e
          | Ok control_plane_subordinates =>
              let plan := add_step plan control_plane_principals in
              let plan := add_step plan control_plane_subordinates in
              Ok plan
          end
      end
  end.
End aggregate.

End Plan.

(** ** The deployments of the tests *)
Module Fixtures.
Import Openstack.

(** The releases the tests name, in their order, and the releases
    supported on focal. *)
Definition codenames : list string :=
  ["train"; "ussuri"; "victoria"; "wallaby"; "xena"; "yoga"; "zed"].
Definition train := Release 0.
Definition ussuri := Release 1.
Definition victoria := Release 2.
Definition wallaby := Release 3.
Definition xena := Release 4.
Definition yoga := Release 5.
Definition zed := Release 6.
Definition supported : gmap string (list OpenStackRelease) :=
  {[ "focal" := [ussuri; victoria; wallaby; xena; yoga] ]}.

(** Applications for [cou/apps/app.py]. *)
Definition keystone_status (versions : list (string * string)) : App.ApplicationStatus :=
  {| App.status_charm := "ch:amd64/focal/keystone-638";
     App.charm_channel := "ussuri/stable";
     App.status_series := "focal";
     App.status_units :=
       (λ kv, (kv.1, {| App.workload_version := kv.2 |})) <$> versions |}.

Definition keystone_with (app_name charm_name : string)
    (versions : list (string * string))
    (us : gmap string (gmap string App.value)) : App.Application :=
  {| App.name := app_name;
     App.status := keystone_status versions;
     App.config := ∅;
     App.model_name := "test_model";
     App.charm := charm_name;
     App.charm_origin := "";
     App.os_origin := "";
     App.channel := "";
     App.units := us |}.

Definition unit_at (wv : string) (os : App.value) : gmap string App.value :=
  {[ "workload_version" := App.VStr wv; "os_version" := os ]}.

Definition app_no_units : App.Application := keystone_with "keystone-ldap" "keystone-ldap" [] ∅.
Definition app_agreeing : App.Application :=
  keystone_with "keystone" "keystone" []
    {[ "keystone/0" := unit_at "17.0.1" (App.VRelease ussuri);
       "keystone/1" := unit_at "17.0.1" (App.VRelease ussuri) ]}.
Definition app_mismatched : App.Application :=
  keystone_with "keystone" "keystone" []
    {[ "keystone/0" := unit_at "17.0.1" (App.VRelease ussuri);
       "keystone/1" := unit_at "18.1.0" (App.VRelease victoria) ]}.
Definition app_unresolved : App.Application :=
  keystone_with "keystone" "keystone" []
    {[ "keystone/0" := unit_at "0.0.1" App.VNone;
       "keystone/1" := unit_at "0.0.2" App.VNone ]}.
Definition app_half_resolved : App.Application :=
  keystone_with "keystone" "keystone" []
    {[ "keystone/0" := unit_at "17.0.1" (App.VRelease ussuri);
       "keystone/1" := unit_at "0.0.2" App.VNone ]}.

(** A status snapshot to construct an application from, with a lookup that
    knows one workload version, compatible with two releases. *)
Definition app_fresh : App.Application :=
  keystone_with "keystone" "" [("keystone/0", "17.0.1"); ("keystone/1", "0.0.2")] ∅.
Definition sample_extract (url : string) : string :=
  default "" (head (Py.split "-" (default "" (last (Py.split "/" url))))).
Definition sample_lookup (charm_name wv : string) : list OpenStackRelease :=
  if decide (charm_name = "keystone" ∧ wv = "17.0.1") then [ussuri; victoria; train]
  else [].



Definition octopus_key : string :=
  "ceph version 15.2.17 (8a82819d84cf884bd39c17e3236e0632) octopus (stable)".



Definition sample_ceph_releases : list string :=
  ["nautilus"; "octopus"; "pacific"; "quincy"].

(** The applications of [test_generate_plan]. *)
Definition unit_named (n : string) : AppUtils.Unit := {| AppUtils.unit_name := n |}.
Definition keystone : Plan.OpenStackApplication :=
  {| Plan.name := "keystone"; Plan.charm := "keystone"; Plan.is_subordinate := false;
     Plan.origin_setting := "openstack-origin";
     Plan.units := unit_named <$> ["keystone/0"; "keystone/1"; "keystone/2"] |}.
Definition cinder : Plan.OpenStackApplication :=
  {| Plan.name := "cinder"; Plan.charm := "cinder"; Plan.is_subordinate := false;
     Plan.origin_setting := "openstack-origin";
     Plan.units := unit_named <$> ["cinder/0"; "cinder/1"; "cinder/2"] |}.
Definition keystone_ldap : Plan.OpenStackApplication :=
  {| Plan.name := "keystone-ldap"; Plan.charm := "keystone-ldap";
     Plan.is_subordinate := true; Plan.origin_setting := ""; Plan.units := [] |}.
Definition test_model : Plan.Model := {| Plan.model_name := "test_model" |}.

(** A generation that halts for cinder, fails for an application named
    [broken] and plans every other application. *)
Definition sample_generate (app : Plan.OpenStackApplication) (target : OpenStackRelease)
  : Plan.result Steps.Step :=
  if decide (Plan.name app = "cinder") then Plan.Raise Plan.HaltUpgradePlanGeneration
  else if decide (Plan.name app = "broken") then Plan.Raise (Plan.Other "test")
  else Plan.Ok (Plan.generate_upgrade_plan codenames app target test_model).

Definition broken : Plan.OpenStackApplication :=
  {| Plan.name := "broken"; Plan.charm := "broken"; Plan.is_subordinate := false;
     Plan.origin_setting := "source"; Plan.units := [] |}.

Definition analysis_result : Plan.Analysis :=
  {| Plan.model := test_model;
     Plan.apps_control_plane := [keystone; cinder; keystone_ldap];
     Plan.apps_data_plane := [];
     Plan.current_cloud_os_release := Some ussuri;
     Plan.current_cloud_series := Some "focal" |}.

(** Configurations with both origin options, with source alone, and with
    an openstack-origin that has no value. *)
Definition config_both : gmap string (gmap string string) :=
  {[ "openstack-origin" := {[ "value" := "cloud:focal-victoria" ]};
     "source" := {[ "value" := "distro" ]} ]}.
Definition config_source : gmap string (gmap string string) :=
  {[ "openstack-origin" := ∅; "source" := {[ "value" := "distro" ]} ]}.
Definition config_no_value : gmap string (gmap string string) :=
  {[ "openstack-origin" := {[ "default" := "distro" ]};
     "source" := {[ "value" := "cloud:focal-victoria" ]} ]}.

(** A keystone constructed over units it was given: a note on keystone/0
    and a unit keystone/9 the status does not name. *)
Definition app_preset : App.Application :=
  keystone_with "keystone" "" [("keystone/0", "17.0.1")]
    {[ "keystone/0" := {[ "note" := App.VStr "kept" ]};
       "keystone/9" := unit_at "16.0.0" (App.VRelease train) ]}.

(** A keystone whose two units run the same known workload version, and
    one without units. *)
Definition app_fresh_same : App.Application :=
  keystone_with "keystone" "" [("keystone/0", "17.0.1"); ("keystone/1", "17.0.1")] ∅.
Definition app_fresh_empty : App.Application := keystone_with "keystone" "" [] ∅.

(** A model that answers the commands, in order, with the outputs of a
    script, and fails once the script is over; and a decoder given by a
    table. *)
Definition scripted_model (c : AppUtils.call) (script : list string)
  : AppUtils.result (gmap string string) * list string :=
  match script with
  | out :: rest => (AppUtils.Ok {[ "Stdout" := out ]}, rest)
  | [] => (AppUtils.Raise AppUtils.CommandRunFailed, [])
  end.
Definition table_json_loads (table : list (string * AppUtils.json)) (out : string)
  : option AppUtils.json := AppUtils.items_get table out.

Definition octopus_older_key : string :=
  "ceph version 15.2.16 (d46a73d6d0a67a79558054a3a5a72cb561724974) octopus (stable)".
Definition sample_table : list (string * AppUtils.json) :=
  [("no-setting", AppUtils.JObj [("epoch", AppUtils.JNum 12)]);
   ("no-osd", AppUtils.JObj [("mon", AppUtils.JObj [(octopus_key, AppUtils.JNum 3)])]);
   ("short", AppUtils.JObj [("osd", AppUtils.JObj [("octopus", AppUtils.JNum 3)])]);
   ("part", AppUtils.JObj
              [("osd", AppUtils.JObj [("ceph version 15.2.17 (8a82819d) oct (stable)",
                                       AppUtils.JNum 3)])]);
   ("builds", AppUtils.JObj
                [("osd", AppUtils.JObj [(octopus_key, AppUtils.JNum 2);
                                        (octopus_older_key, AppUtils.JNum 1)])])].

(** A ceph-mon whose OSD entry names octopus after a no-break space
    (U+00A0, the bytes C2 A0), with the same string, no-break space
    included, as the required release. *)
Definition nbsp_octopus : string := String "194" (String "160" "octopus").
Definition nbsp_table : list (string * AppUtils.json) :=
  [("dump", AppUtils.JObj [("require_osd_release", AppUtils.JStr nbsp_octopus)]);
   ("versions",
    AppUtils.JObj
      [("osd",
        AppUtils.JObj
          [("ceph version 15.2.17 (8a82819d) " +:+ nbsp_octopus +:+ " (stable)",
            AppUtils.JNum 3)])])].

End Fixtures.

(** * Part II: properties *)

(** ** Facts about the Python built-ins *)
Module PyFacts.

Lemma sorted_permutation (l : list string) : Py.sorted l ≡ₚ l.
Proof. unfold Py.sorted. apply merge_sort_Permutation. Qed.

Lemma sorted_ascending (l : list string) : StronglySorted String.le (Py.sorted l).
Proof.
  unfold Py.sorted. apply Sorted_StronglySorted; [apply _ |].
  apply Sorted_merge_sort; apply _.
Qed.

Lemma append_assoc (a b c : string) : (a +:+ b) +:+ c = a +:+ (b +:+ c).
Proof.
  induction a as [| x a IH]; [done |].
  change (String x a +:+ b) with (String x (a +:+ b)).
  change (String x (a +:+ b) +:+ c) with (String x ((a +:+ b) +:+ c)).
  by rewrite IH.
Qed.

Lemma prefix_refl (s : string) : String.prefix s s = true.
Proof.
  induction s as [| x s IH]; [done |]. simpl.
  destruct (ascii_dec x x); [exact IH | done].
Qed.

Lemma prefix_app_l (sub s t : string) :
  String.prefix sub s = true → String.prefix sub (s +:+ t) = true.
Proof.
  revert s. induction sub as [| x sub IH]; intros s Hp; [by destruct (s +:+ t) |].
  destruct s as [| y s]; [done |].
  change (String y s +:+ t) with (String y (s +:+ t)). simpl in *.
  destruct (ascii_dec x y); [by apply IH | done].
Qed.

Lemma contains_unfold (sub s : string) :
  Py.contains sub s =
    String.prefix sub s
    || match s with EmptyString => false | String _ rest => Py.contains sub rest end.
Proof. by destruct s. Qed.

Lemma contains_app_l (sub s t : string) :
  Py.contains sub s = true → Py.contains sub (s +:+ t) = true.
Proof.
  induction s as [| x s IH]; intros Hc.
  - rewrite contains_unfold, orb_false_r in Hc.
    rewrite contains_unfold. by rewrite (prefix_app_l sub "" t Hc).
  - rewrite contains_unfold in Hc. apply orb_true_iff in Hc as [Hp | Hrest].
    + rewrite contains_unfold. by rewrite (prefix_app_l _ _ t Hp).
    + change (String x s +:+ t) with (String x (s +:+ t)).
      rewrite contains_unfold, (IH Hrest). apply orb_true_r.
Qed.

Lemma contains_app_r (sub s t : string) :
  Py.contains sub s = true → Py.contains sub (t +:+ s) = true.
Proof.
  intros Hc. induction t as [| x t IH]; [exact Hc |].
  change (String x t +:+ s) with (String x (t +:+ s)).
  rewrite contains_unfold, IH. apply orb_true_r.
Qed.

(** Every string of a list occurs in the list joined by a separator. *)
Lemma contains_join (sep x : string) (l : list string) :
  x ∈ l → Py.contains x (Py.join sep l) = true.
Proof.
  induction l as [| y l IH]; intros Hx; [by apply elem_of_nil in Hx |].
  assert (Hself : Py.contains x x = true).
  { rewrite contains_unfold, prefix_refl. done. }
  destruct (proj1 (elem_of_cons _ _ _) Hx) as [<- | Hin].
  - destruct l as [| z l]; [exact Hself |].
    change (Py.join sep (x :: z :: l)) with (x +:+ sep +:+ Py.join sep (z :: l)).
    by apply contains_app_l.
  - destruct l as [| z l]; [by apply elem_of_nil in Hin |].
    change (Py.join sep (y :: z :: l)) with (y +:+ sep +:+ Py.join sep (z :: l)).
    apply contains_app_r, contains_app_r. by apply IH.
Qed.

(** The sorted list depends on the elements only, not on their order. *)
Lemma sorted_of_permutation (l1 l2 : list string) :
  l1 ≡ₚ l2 → Py.sorted l1 = Py.sorted l2.
Proof.
  intros Hperm.
  apply (StronglySorted_unique String.le); auto using sorted_ascending.
  rewrite !sorted_permutation. exact Hperm.
Qed.

End PyFacts.

(** ** The deployment entity model: cou/apps/app.py *)
Module AppSpec.
Import Openstack App Fixtures.

Lemma elem_of_os_versions (a : Application) (v : value) :
  v ∈ os_versions a ↔
  ∃ u d, units a !! u = Some d ∧ dict_get d "os_version" = v.
Proof.
  unfold os_versions. rewrite elem_of_list_to_set, list_elem_of_fmap. split.
  - intros (d & -> & Hd). apply list_elem_of_fmap in Hd as ([u d'] & -> & Hud).
    apply elem_of_map_to_list in Hud. eauto.
  - intros (u & d & Hud & <-). exists d. split; [done |].
    apply list_elem_of_fmap. exists (u, d). split; [done |].
    by apply elem_of_map_to_list.
Qed.

Lemma os_versions_no_units (a : Application) :
  units a = ∅ → os_versions a = ∅.
Proof. intros Hu. unfold os_versions. by rewrite Hu, map_to_list_empty. Qed.

(** When every unit reports the same value, the set is that single value. *)
Lemma os_versions_agree (a : Application) (v : value) :
  units a ≠ ∅ →
  (∀ u d, units a !! u = Some d → dict_get d "os_version" = v) →
  os_versions a = {[ v ]}.
Proof.
  intros Hne Hall. apply set_eq. intros w.
  rewrite elem_of_os_versions, elem_of_singleton. split.
  - intros (u & d & Hud & <-). eauto.
  - intros ->. apply map_choose in Hne as (u & d & Hud). eauto.
Qed.

(** Two different values in the set send the property to its last branch. *)
Lemma current_os_release_two_values (a : Application) (v w : value) :
  v ∈ os_versions a → w ∈ os_versions a → v ≠ w →
  current_os_release a =
    (Raise MismatchedOpenStackVersions,
     [ErrorMismatchedVersions (name a) (os_versions a)]).
Proof.
  intros Hv Hw Hvw. unfold current_os_release.
  apply elem_of_elements in Hv, Hw.
  destruct (elements (os_versions a)) as [| x [| y l]]; [| | done].
  - by apply elem_of_nil in Hv.
  - apply list_elem_of_singleton in Hv, Hw. congruence.
Qed.

Lemma current_os_release_single (a : Application) (v : value) :
  os_versions a = {[ v ]} → current_os_release a = (Ok v, []).
Proof.
  intros HX. unfold current_os_release. by rewrite HX, elements_singleton.
Qed.

(** A property of both entries of a dictionary of two units holds of every
    entry. *)
Lemma two_units_lookup k1 d1 k2 d2
    (P : gmap string value → Prop) :
  P d1 → P d2 →
  ∀ u d, ({[ k1 := d1; k2 := d2 ]} : gmap string (gmap string value)) !! u = Some d → P d.
Proof.
  intros H1 H2 u d Hu.
  apply lookup_insert_Some in Hu as [[_ <-] | [_ Hu]]; [done |].
  apply lookup_singleton_Some in Hu as [_ <-]. done.
Qed.

(** C1: [current_os_release] is unresolved without error for an application
    with no units, is the shared release when every unit resolved to the
    same release, and raises [MismatchedOpenStackVersions] when two units
    resolved to different releases. *)
Theorem current_os_release_by_units (a : Application) :
  (units a = ∅ → current_os_release a = (Ok VNone, []))
  ∧ (∀ r,
       units a ≠ ∅ →
       (∀ u d, units a !! u = Some d → d !! "os_version" = Some (VRelease r)) →
       current_os_release a = (Ok (VRelease r), []))
  ∧ (∀ u1 u2 d1 d2 r1 r2,
       units a !! u1 = Some d1 → d1 !! "os_version" = Some (VRelease r1) →
       units a !! u2 = Some d2 → d2 !! "os_version" = Some (VRelease r2) →
       r1 ≠ r2 →
       (current_os_release a).1 = Raise MismatchedOpenStackVersions).
Proof.
  split; [| split].
  - intros Hu. unfold current_os_release.
    by rewrite (os_versions_no_units a Hu), elements_empty.
  - intros r Hne Hall. apply current_os_release_single.
    apply os_versions_agree; [done |].
    intros u d Hud. unfold dict_get. by rewrite (Hall u d Hud).
  - intros u1 u2 d1 d2 r1 r2 H1 Hr1 H2 Hr2 Hne.
    rewrite (current_os_release_two_values a (VRelease r1) (VRelease r2)).
    + done.
    + apply elem_of_os_versions. exists u1, d1. unfold dict_get. by rewrite Hr1.
    + apply elem_of_os_versions. exists u2, d2. unfold dict_get. by rewrite Hr2.
    + congruence.
Qed.

(** The three cases on the deployments of the tests. *)
Lemma current_os_release_by_units_witness :
  current_os_release app_no_units = (Ok VNone, [])
  ∧ current_os_release app_agreeing = (Ok (VRelease ussuri), [])
  ∧ (current_os_release app_mismatched).1 = Raise MismatchedOpenStackVersions.
Proof.
  split; [| split].
  - apply (proj1 (current_os_release_by_units app_no_units)). reflexivity.
  - apply (proj1 (proj2 (current_os_release_by_units app_agreeing))).
    + intros Hempty. apply (f_equal (λ m, m !! "keystone/0")) in Hempty. discriminate Hempty.
    + apply two_units_lookup; reflexivity.
  - apply (proj2 (proj2 (current_os_release_by_units app_mismatched))
             "keystone/0" "keystone/1" (unit_at "17.0.1" (VRelease ussuri))
             (unit_at "18.1.0" (VRelease victoria)) ussuri victoria);
      [reflexivity | reflexivity | reflexivity | reflexivity | discriminate].
Defined.

(** C9: with at least one unit and every unit unresolved the property is
    unresolved and nothing is raised; one unit resolved to a release beside
    one unresolved unit raises [MismatchedOpenStackVersions], [None] being
    one more value of the compared set. *)
Theorem current_os_release_unresolved_units (a : Application) :
  (units a ≠ ∅ →
   (∀ u d, units a !! u = Some d → dict_get d "os_version" = VNone) →
   current_os_release a = (Ok VNone, []))
  ∧ (∀ u1 u2 d1 d2 r,
       units a !! u1 = Some d1 → d1 !! "os_version" = Some (VRelease r) →
       units a !! u2 = Some d2 → dict_get d2 "os_version" = VNone →
       (current_os_release a).1 = Raise MismatchedOpenStackVersions).
Proof.
  split.
  - intros Hne Hall. apply current_os_release_single.
    by apply os_versions_agree.
  - intros u1 u2 d1 d2 r H1 Hr H2 Hnone.
    rewrite (current_os_release_two_values a (VRelease r) VNone).
    + done.
    + apply elem_of_os_versions. exists u1, d1. unfold dict_get. by rewrite Hr.
    + apply elem_of_os_versions. eauto.
    + done.
Qed.

(** Both cases on a keystone of two units. *)
Lemma current_os_release_unresolved_units_witness :
  current_os_release app_unresolved = (Ok VNone, [])
  ∧ (current_os_release app_half_resolved).1 = Raise MismatchedOpenStackVersions.
Proof.
  split.
  - apply (proj1 (current_os_release_unresolved_units app_unresolved)).
    + intros Hempty. apply (f_equal (λ m, m !! "keystone/0")) in Hempty. discriminate Hempty.
    + apply two_units_lookup; reflexivity.
  - apply (proj2 (current_os_release_unresolved_units app_half_resolved)
             "keystone/0" "keystone/1" (unit_at "17.0.1" (VRelease ussuri))
             (unit_at "0.0.2" VNone) ussuri);
      reflexivity.
Defined.

Lemma max_release_elem (first : OpenStackRelease) (rest : list OpenStackRelease) :
  max_release first rest ∈ first :: rest.
Proof.
  unfold max_release. revert first.
  induction rest as [| x rest IH]; intros first; simpl.
  - apply list_elem_of_here.
  - specialize (IH (if release_ltb first x then x else first)).
    apply elem_of_cons in IH as [-> | IH].
    + destruct (release_ltb first x); set_solver.
    + set_solver.
Qed.

Lemma max_release_upper (first : OpenStackRelease) (rest : list OpenStackRelease) :
  ∀ r, r ∈ first :: rest → (index r ≤ index (max_release first rest))%nat.
Proof.
  unfold max_release. revert first.
  induction rest as [| x rest IH]; intros first r Hr; simpl.
  - apply list_elem_of_singleton in Hr as ->. lia.
  - assert (Hstep : (index first ≤ index (if release_ltb first x then x else first))%nat
                    ∧ (index x ≤ index (if release_ltb first x then x else first))%nat).
    { unfold release_ltb. destruct (Nat.ltb_spec (index first) (index x)); lia. }
    destruct Hstep as [Hf Hx].
    apply elem_of_cons in Hr as [-> | Hr].
    + etrans; [exact Hf |]. apply IH. apply list_elem_of_here.
    + apply elem_of_cons in Hr as [-> | Hr].
      * etrans; [exact Hx |]. apply IH. apply list_elem_of_here.
      * apply IH. by apply list_elem_of_further.
Qed.

Lemma status_lookup_keys (l : list (string * UnitStatus)) (k : string) :
  k ∈ l.*1 → is_Some (status_lookup l k).
Proof.
  induction l as [| [k' v] l IH]; simpl; intros Hk.
  - by apply elem_of_nil in Hk.
  - case_decide; [eauto |]. apply IH.
    destruct (proj1 (elem_of_cons _ _ _) Hk) as [Heq | Hin]; [congruence | done].
Qed.

Lemma units_set_lookup_eq (us : gmap string (gmap string value)) k key v :
  units_set us k key v !! k = Some (<[key := v]> (default ∅ (us !! k))).
Proof. unfold units_set. apply lookup_insert_eq. Qed.

Lemma units_set_lookup_ne (us : gmap string (gmap string value)) k k' key v :
  k ≠ k' → units_set us k key v !! k' = us !! k'.
Proof. intros Hne. unfold units_set. by apply lookup_insert_ne. Qed.

Section post_init_facts.
Variable extract_charm_name_from_url : string → string.
Variable lookup : string → string → list OpenStackRelease.

(** One turn of the loop resolves its unit, leaves the others alone and
    only adds to the log. *)
Lemma post_init_unit_spec app_name charm_name st k ustatus acc :
  status_lookup (status_units st) k = Some ustatus →
  ∃ acc',
    post_init_unit lookup app_name charm_name st k acc = Ok acc'
    ∧ (∀ k', k ≠ k' → acc'.1 !! k' = acc.1 !! k')
    ∧ (∃ more, acc'.2 = (acc.2 ++ more)%list)
    ∧ unit_resolved app_name (workload_version ustatus)
        (lookup charm_name (workload_version ustatus)) (acc'.1 !! k) acc'.2.
Proof.
  intros Hk. unfold post_init_unit. rewrite Hk.
  destruct (lookup charm_name (workload_version ustatus)) as [| first rest] eqn:Hl.
  - eexists. split; [done |]. simpl. split; [| split].
    + intros k' Hne. by rewrite !units_set_lookup_ne.
    + eauto.
    + eexists. split; [apply units_set_lookup_eq |].
      rewrite units_set_lookup_eq. simpl.
      split; [by simplify_map_eq |].
      split; [by simplify_map_eq |]. set_solver.
  - eexists. split; [done |]. simpl. split; [| split].
    + intros k' Hne. by rewrite !units_set_lookup_ne.
    + exists []. by rewrite app_nil_r.
    + eexists. split; [apply units_set_lookup_eq |].
      rewrite units_set_lookup_eq. simpl.
      split; [by simplify_map_eq |].
      exists (max_release first rest).
      split; [by simplify_map_eq |].
      split; [apply max_release_elem | apply max_release_upper].
Qed.

Lemma unit_resolved_log_mono app_name wv compatible entry log more :
  unit_resolved app_name wv compatible entry log →
  unit_resolved app_name wv compatible entry (log ++ more)%list.
Proof.
  intros (d & Hd & Hwv & Hos). exists d. split; [done |]. split; [done |].
  destruct compatible; [| done].
  destruct Hos as [Hos Hlog]. split; [done |]. set_solver.
Qed.

(** The loop never fails on the keys of the status it iterates over, and
    leaves every one of them resolved. *)
Lemma post_init_loop_spec app_name charm_name st keys :
  (∀ k, k ∈ keys → is_Some (status_lookup (status_units st) k)) →
  ∀ acc, ∃ acc',
    post_init_loop lookup app_name charm_name st keys acc = Ok acc'
    ∧ (∀ k, k ∉ keys → acc'.1 !! k = acc.1 !! k)
    ∧ (∃ more, acc'.2 = (acc.2 ++ more)%list)
    ∧ (∀ k ustatus,
         k ∈ keys → status_lookup (status_units st) k = Some ustatus →
         unit_resolved app_name (workload_version ustatus)
           (lookup charm_name (workload_version ustatus)) (acc'.1 !! k) acc'.2).
Proof.
  induction keys as [| k keys IH]; intros Hkeys acc.
  - exists acc. split; [done |]. split; [done |].
    split; [exists []; by rewrite app_nil_r |].
    intros k ustatus Hk. by apply elem_of_nil in Hk.
  - destruct (Hkeys k) as [ustatus Hk]; [apply list_elem_of_here |].
    destruct (post_init_unit_spec app_name charm_name st k ustatus acc Hk)
      as (acc1 & Hstep & Hother1 & [more1 Hlog1] & Hres1).
    destruct (IH (λ k' Hk', Hkeys k' (list_elem_of_further _ _ _ Hk')) acc1)
      as (acc2 & Hloop & Hother2 & [more2 Hlog2] & Hres2).
    exists acc2. simpl. rewrite Hstep. split; [done |]. split; [| split].
    + intros k' Hk'. apply not_elem_of_cons in Hk' as [Hne Hk'].
      rewrite (Hother2 k' Hk'). by apply Hother1.
    + exists (more1 ++ more2)%list. by rewrite Hlog2, Hlog1, app_assoc.
    + intros k' ustatus' Hk' Hlook.
      destruct (decide (k' ∈ keys)) as [Hin | Hnotin]; [by apply Hres2 |].
      destruct (proj1 (elem_of_cons _ _ _) Hk') as [-> | Hk'']; [| done].
      assert (ustatus' = ustatus) as -> by congruence.
      rewrite (Hother2 k Hnotin), Hlog2. by apply unit_resolved_log_mono.
Qed.

(** C6: the constructor never fails; for every unit of the status
    snapshot it records the workload version, resolves the release as the
    highest of the releases the lookup finds compatible with the charm
    and that version, and when the lookup finds none it records [None],
    logs a warning and goes on with the remaining units. *)
Theorem post_init_resolves_every_unit (a : Application) :
  ∃ a' log,
    post_init extract_charm_name_from_url lookup a = Ok (a', log)
    ∧ charm a' = extract_charm_name_from_url (status_charm (status a))
    ∧ ∀ unit_name ustatus,
        status_lookup (status_units (status a)) unit_name = Some ustatus →
        unit_resolved (name a) (workload_version ustatus)
          (lookup (charm a') (workload_version ustatus))
          (units a' !! unit_name) log.
Proof.
  unfold post_init.
  destruct (_get_os_origin (name a) (config a)) as [os_orig log0].
  destruct (post_init_loop_spec (name a)
              (extract_charm_name_from_url (status_charm (status a)))
              (status a) (status_units (status a)).*1
              (status_lookup_keys _) (units a, log0))
    as ([us log] & Hloop & _ & _ & Hres).
  rewrite Hloop. eexists _, log. split; [done |]. simpl. split; [done |].
  intros k ustatus Hk. apply Hres; [| done].
  clear -Hk. induction (status_units (status a)) as [| [k' v] l IH]; [done |].
  simpl in *. case_decide; [subst; apply list_elem_of_here |].
  apply list_elem_of_further. by apply IH.
Qed.
End post_init_facts.

(** The construction of a keystone of two units, one of a known workload
    version and one of an unknown one. *)
Lemma post_init_resolves_every_unit_witness :
  ∃ a' log,
    post_init sample_extract sample_lookup app_fresh = Ok (a', log)
    ∧ unit_resolved "keystone" "17.0.1" [ussuri; victoria; train]
        (units a' !! "keystone/0") log
    ∧ unit_resolved "keystone" "0.0.2" [] (units a' !! "keystone/1") log.
Proof.
  destruct (post_init_resolves_every_unit sample_extract sample_lookup app_fresh)
    as (a' & log & Hok & Hcharm & Hunits).
  exists a', log. split; [exact Hok |]. split.
  - pose proof (Hunits "keystone/0" {| workload_version := "17.0.1" |} eq_refl) as H.
    rewrite Hcharm in H. exact H.
  - pose proof (Hunits "keystone/1" {| workload_version := "0.0.2" |} eq_refl) as H.
    rewrite Hcharm in H. exact H.
Defined.

(** C7: two applications are equal exactly when their names and their
    charms are, whatever the other fields hold, and equal applications have
    equal hashes. *)
Theorem application_eq_by_name_and_charm
    (str_hash : string → Z) (a b : Application) :
  (eq a b = true ↔ name a = name b ∧ charm a = charm b)
  ∧ (∀ a' b',
       name a' = name a → charm a' = charm a →
       name b' = name b → charm b' = charm b →
       eq a' b' = eq a b)
  ∧ (eq a b = true → hash str_hash a = hash str_hash b).
Proof.
  assert (Hiff : ∀ x y, eq x y = true ↔ name x = name y ∧ charm x = charm y).
  { intros x y. unfold eq.
    rewrite andb_true_iff, !bool_decide_eq_true.
    split; intros [Hn Hc]; split; congruence. }
  split; [apply Hiff | split].
  - intros a' b' Ha Hc Hb Hd. unfold eq. by rewrite Ha, Hc, Hb, Hd.
  - intros Heq. destruct (proj1 (Hiff a b) Heq) as [Hn Hc].
    unfold hash. by rewrite Hn, Hc.
Qed.

(** Two keystones that differ in their units are equal and hash alike. *)
Lemma application_eq_by_name_and_charm_witness :
  eq app_agreeing app_mismatched = true
  ∧ hash (λ s, Z.of_nat (String.length s)) app_agreeing
    = hash (λ s, Z.of_nat (String.length s)) app_mismatched
  ∧ eq app_unresolved app_half_resolved = eq app_agreeing app_mismatched.
Proof.
  pose proof (application_eq_by_name_and_charm (λ s, Z.of_nat (String.length s))
                app_agreeing app_mismatched) as (Hiff & Hother & Hhash).
  assert (Heq : eq app_agreeing app_mismatched = true).
  { apply (proj2 Hiff). split; reflexivity. }
  split; [exact Heq |]. split; [exact (Hhash Heq) |].
  apply Hother; reflexivity.
Defined.

End AppSpec.

(** ** cou/utils/app_utils.py *)
Module AppUtilsSpec.
Import AppUtils Fixtures.

(** C10: [stringify_units] joins with [", "] the units' names put in
    ascending order, and two iterables holding the same names, in whatever
    order, give the same string. *)
Theorem stringify_units_sorted (units units' : list Unit)
    (Hperm : unit_name <$> units ≡ₚ unit_name <$> units') :
  (∃ names,
      stringify_units units = Py.join ", " names
      ∧ names ≡ₚ unit_name <$> units
      ∧ StronglySorted String.le names)
  ∧ stringify_units units' = stringify_units units.
Proof.
  split.
  - exists (Py.sorted (unit_name <$> units)).
    auto using PyFacts.sorted_permutation, PyFacts.sorted_ascending.
  - unfold stringify_units.
    by rewrite (PyFacts.sorted_of_permutation _ _ Hperm).
Qed.

(** Three units in two orders. *)
Lemma stringify_units_sorted_witness :
  stringify_units (unit_named <$> ["b/1"; "a/10"; "a/2"]) = "a/10, a/2, b/1"
  ∧ stringify_units (unit_named <$> ["a/2"; "b/1"; "a/10"])
    = stringify_units (unit_named <$> ["b/1"; "a/10"; "a/2"]).
Proof.
  split; [reflexivity |].
  apply (stringify_units_sorted (unit_named <$> ["b/1"; "a/10"; "a/2"])
           (unit_named <$> ["a/2"; "b/1"; "a/10"])).
  simpl. apply Permutation_sym, (Permutation_cons_append ["b/1"; "a/10"] "a/2").
Defined.




Section osd_release.
Context {World : Type}.
Variable model : call → World → result (gmap string string) * World.
Variable json_loads : string → option json.
Variable CEPH_RELEASES : list string.






End osd_release.



(** [strip] removes the whitespace of several bytes as well: the release
    read after a no-break space is octopus, which differs from the required
    string, and the routine sets it. *)
Example set_require_osd_release_option_no_break_space :
  Py.strip nbsp_octopus = "octopus"
  ∧ set_require_osd_release_option scripted_model (table_json_loads nbsp_table)
      sample_ceph_releases "ceph-mon/0" (["dump"; "versions"; ""], []) =
      (Ok (), ([], [dump_call "ceph-mon/0"; versions_call "ceph-mon/0";
                    set_call "ceph-mon/0" "octopus"])).
Proof. split; reflexivity. Qed.


End AppUtilsSpec.

(** ** The plan generator: cou.steps.plan *)
Module PlanSpec.
Import Openstack Steps Plan Fixtures.

(** In a strictly ascending window every release but the last ranks below
    the last. *)
Lemma below_last (window : list OpenStackRelease) (r m : OpenStackRelease) :
  StronglySorted lt (index <$> window) →
  r ∈ window → last window = Some m → r ≠ m →
  (index r < index m)%nat.
Proof.
  induction window as [| x rest IH]; intros Hsorted Hr Hlast Hne.
  - by apply elem_of_nil in Hr.
  - rewrite fmap_cons in Hsorted.
    apply StronglySorted_cons in Hsorted as [Hx Hrest].
    destruct rest as [| y rest'].
    + rewrite last_singleton in Hlast.
      apply list_elem_of_singleton in Hr. congruence.
    + rewrite last_cons_cons in Hlast.
      destruct (proj1 (elem_of_cons _ _ _) Hr) as [-> | Hr'].
      * rewrite Forall_forall in Hx. apply Hx.
        apply list_elem_of_fmap. exists m. split; [done |].
        by apply last_Some_elem_of.
      * by apply IH.
Qed.

Section release_model.
Variable codenames : list string.
Variable supported : gmap string (list OpenStackRelease).

(** C2: the target is a function of the release and the series; an
    unset release or series raises [NoTargetError]; the last release
    supported on the series raises [HighestReleaseAchieved]; a pair
    outside the supported window raises [OutOfSupportRange]; and any
    other supported pair resolves to the release of the next rank. *)
Theorem determine_upgrade_target_resolves
    (Hwf : window_wf codenames supported) :
  (∀ series,
      determine_upgrade_target codenames supported None series =
        Raise (NoTargetError
                 ("Cannot determine the current OS release in the cloud. "
                  +:+ "Is this a valid OpenStack cloud?")))
  ∧ (∀ release,
      determine_upgrade_target codenames supported (Some release) None =
        Raise (NoTargetError
                 ("Cannot determine the current Ubuntu series in the cloud. "
                  +:+ "Is this a valid OpenStack cloud?")))
  ∧ (∀ release series window,
      supported !! series = Some window →
      last window = Some release →
      determine_upgrade_target codenames supported (Some release) (Some series) =
        Raise HighestReleaseAchieved)
  ∧ (∀ release series,
      release ∉ default [] (supported !! series) →
      determine_upgrade_target codenames supported (Some release) (Some series) =
        Raise OutOfSupportRange)
  ∧ (∀ release series window,
      supported !! series = Some window →
      release ∈ window →
      last window ≠ Some release →
      ∃ target,
        determine_upgrade_target codenames supported (Some release) (Some series) =
          Ok target
        ∧ index target = S (index release)).
Proof.
  split; [done |]. split; [done |]. split; [| split].
  - intros release series window Hw Hlast. unfold determine_upgrade_target.
    rewrite Hw. simpl. by rewrite decide_True.
  - intros release series Hout. unfold determine_upgrade_target.
    rewrite decide_False.
    + by rewrite decide_False.
    + intros Hlast. apply Hout. by apply last_Some_elem_of.
  - intros release series window Hw Hin Hnotlast.
    destruct (Hwf series window Hw) as [Hsorted Hbound].
    destruct (last window) as [m |] eqn:Hlast.
    2: { apply last_None in Hlast. subst. by apply elem_of_nil in Hin. }
    assert (Hlt : (index release < index m)%nat).
    { apply (below_last window); [done | done | done | congruence]. }
    assert (Hm : (index m < length codenames)%nat).
    { rewrite Forall_forall in Hbound. apply Hbound.
      by apply last_Some_elem_of. }
    exists (Release (S (index release))). split; [| done].
    unfold determine_upgrade_target. rewrite Hw. simpl. rewrite Hlast.
    rewrite decide_False by congruence.
    rewrite decide_True by done.
    unfold next_release. rewrite decide_True by lia. done.
Qed.
End release_model.

(** The window of the tests is well formed. *)
Lemma fixtures_window_wf : window_wf codenames supported.
Proof.
  intros series window Hw. unfold supported in Hw.
  apply lookup_singleton_Some in Hw as [_ <-].
  split.
  - simpl. repeat (first [apply SSorted_nil | apply SSorted_cons
                          | apply List.Forall_nil | apply List.Forall_cons; [lia |]]).
  - repeat (first [apply List.Forall_nil | apply List.Forall_cons; [simpl; lia |]]).
Defined.

(** [test_determine_upgrade_target] and the tests next to it, on the
    tables of the tests. *)
Example test_determine_upgrade_target :
  determine_upgrade_target codenames supported (Some victoria) (Some "focal") = Ok wallaby
  ∧ determine_upgrade_target codenames supported (Some xena) (Some "focal") = Ok yoga.
Proof. split; reflexivity. Qed.

Example test_determine_upgrade_target_no_upgrade_available :
  determine_upgrade_target codenames supported (Some yoga) (Some "focal") =
    Raise HighestReleaseAchieved.
Proof. reflexivity. Qed.

Example test_determine_upgrade_target_invalid_input :
  determine_upgrade_target codenames supported None (Some "bionic") =
    Raise (NoTargetError
             "Cannot determine the current OS release in the cloud. Is this a valid OpenStack cloud?")
  ∧ determine_upgrade_target codenames supported (Some ussuri) None =
      Raise (NoTargetError
               "Cannot determine the current Ubuntu series in the cloud. Is this a valid OpenStack cloud?").
Proof. split; reflexivity. Qed.

(** With a sequence that ends at ussuri the release has no successor. *)
Example test_determine_upgrade_target_no_next_release :
  determine_upgrade_target ["train"; "ussuri"] supported (Some ussuri) (Some "focal") =
    Raise (NoTargetError
             "Cannot find target to upgrade. Current minimum OS release is 'ussuri'. Current Ubuntu series is 'focal'.").
Proof. reflexivity. Qed.

Example test_determine_upgrade_target_release_out_of_range :
  determine_upgrade_target codenames supported (Some yoga) (Some "jammy") =
    Raise OutOfSupportRange
  ∧ determine_upgrade_target codenames supported (Some train) (Some "bionic") =
      Raise OutOfSupportRange
  ∧ determine_upgrade_target codenames supported (Some zed) (Some "focal") =
      Raise OutOfSupportRange.
Proof. repeat split; reflexivity. Qed.

(** The targets of the tests. *)
Lemma determine_upgrade_target_resolves_witness :
  determine_upgrade_target codenames supported (Some yoga) (Some "focal") =
    Raise HighestReleaseAchieved
  ∧ determine_upgrade_target codenames supported (Some zed) (Some "focal") =
      Raise OutOfSupportRange
  ∧ determine_upgrade_target codenames supported (Some yoga) (Some "jammy") =
      Raise OutOfSupportRange
  ∧ ∃ target,
      determine_upgrade_target codenames supported (Some xena) (Some "focal") = Ok target
      ∧ index target = 5.
Proof.
  pose proof (determine_upgrade_target_resolves codenames supported fixtures_window_wf)
    as (_ & _ & Hlast & Hout & Hnext).
  split; [| split; [| split]].
  - apply (Hlast yoga "focal" [ussuri; victoria; wallaby; xena; yoga]); reflexivity.
  - apply (Hout zed "focal"). vm_compute. intros Hin.
    repeat (apply elem_of_cons in Hin as [Hin | Hin]; [discriminate Hin |]).
    by apply elem_of_nil in Hin.
  - apply (Hout yoga "jammy"). vm_compute. intros Hin. by apply elem_of_nil in Hin.
  - apply (Hnext xena "focal" [ussuri; victoria; wallaby; xena; yoga]).
    + reflexivity.
    + do 3 apply list_elem_of_further. apply list_elem_of_here.
    + discriminate.
Defined.

(** The successor of a release has that release as its predecessor. *)
Lemma previous_of_next (codenames : list string) (current target : OpenStackRelease) :
  next_release codenames current = Some target →
  previous_release target = Some current.
Proof.
  unfold next_release. case_decide; [| done].
  intros [= <-]. by destruct current.
Qed.

Lemma actions_unfold (s : Step) :
  actions s =
    (match coro s with Some a => [a] | None => [] end
     ++ concat (actions <$> sub_steps s))%list.
Proof.
  destruct s as [k d p c children]. simpl. f_equal.
  induction children as [| x rest IH]; [done |].
  rewrite fmap_cons. simpl. by rewrite IH.
Qed.

Lemma sub_steps_foldl_add_step {A} (f : A → Step) (l : list A) (acc : Step) :
  sub_steps (foldl (λ acc x, add_step acc (f x)) acc l) =
    (sub_steps acc ++ (f <$> l))%list.
Proof.
  revert acc. induction l as [| x l IH]; intros acc; simpl.
  - by rewrite app_nil_r.
  - rewrite IH. simpl. by rewrite <- app_assoc.
Qed.

Lemma coro_foldl_add_step {A} (f : A → Step) (l : list A) (acc : Step) :
  coro (foldl (λ acc x, add_step acc (f x)) acc l) = coro acc.
Proof. revert acc. induction l as [| x l IH]; intros acc; simpl; [done | by rewrite IH]. Qed.

(** The group of package upgrades holds no wait. *)
Lemma wait_actions_upgrade_packages (group : Step) (l : list AppUtils.Unit) :
  coro group = None → sub_steps group = [] →
  wait_actions
    (foldl (λ acc unit,
              add_step acc
                (mk_step UnitUpgradeStep
                   ("Upgrade software packages on unit " +:+ AppUtils.unit_name unit)
                   false (Some (UpgradePackages (AppUtils.unit_name unit) None)) []))
       group l) = [].
Proof.
  intros Hcoro Hsub. unfold wait_actions.
  rewrite actions_unfold, coro_foldl_add_step, Hcoro, sub_steps_foldl_add_step, Hsub.
  simpl. induction l as [| x l IH]; [done |].
  rewrite !fmap_cons. simpl. exact IH.
Qed.

Section application_plans.
Variable codenames : list string.

(** C4: the plan of a subordinate application is the refresh to the
    channel of the release before the target, which is the current
    release when the target is its successor, followed by the switch to
    the channel of the target, and it holds no wait; the plan of a
    principal application holds one wait, of 1800s for the whole model
    when its charm is rabbitmq-server, ceph-mon or keystone, and of 300s
    for the application alone otherwise. *)
Theorem generate_upgrade_plan_by_role
    (app : OpenStackApplication) (target : OpenStackRelease) (model : Model) :
  (is_subordinate app = true →
   sub_steps (generate_upgrade_plan codenames app target model) =
     [refresh_step app (release_str codenames (previous_release target) +:+ "/stable");
      switch_step app (codename codenames target +:+ "/stable")]
   ∧ wait_actions (generate_upgrade_plan codenames app target model) = []
   ∧ ∀ current,
       next_release codenames current = Some target →
       release_str codenames (previous_release target) = codename codenames current)
  ∧ (is_subordinate app = false →
     charm app ∈ ["rabbitmq-server"; "ceph-mon"; "keystone"] →
     wait_actions (generate_upgrade_plan codenames app target model) =
       [WaitForActiveIdle 1800 None None false])
  ∧ (is_subordinate app = false →
     charm app ∉ ["rabbitmq-server"; "ceph-mon"; "keystone"] →
     wait_actions (generate_upgrade_plan codenames app target model) =
       [WaitForActiveIdle 300 (Some [name app]) None false]).
Proof.
  unfold generate_upgrade_plan. split; [| split].
  - intros ->. split; [| split; [done |]].
    + unfold generate_expected_upgrade_plan_subordinate, refresh_step, switch_step.
      simpl. by rewrite !PyFacts.append_assoc.
    + intros current Hnext. by rewrite (previous_of_next _ _ _ Hnext).
  - intros -> Hcharm. unfold generate_expected_upgrade_plan_principal.
    rewrite decide_True by done.
    unfold wait_actions. rewrite actions_unfold. simpl.
    rewrite List.filter_app.
    fold (wait_actions
            (foldl (λ acc unit,
                      add_step acc
                        (mk_step UnitUpgradeStep
                           ("Upgrade software packages on unit "
                            +:+ AppUtils.unit_name unit)
                           false (Some (UpgradePackages (AppUtils.unit_name unit) None))
                           []))
               (mk_step PreUpgradeStep
                  ("Upgrade software packages of '" +:+ name app
                   +:+ "' from the current APT repositories") true None [])
               (units app))).
    by rewrite wait_actions_upgrade_packages.
  - intros -> Hcharm. unfold generate_expected_upgrade_plan_principal.
    rewrite decide_False by done.
    unfold wait_actions. rewrite actions_unfold. simpl.
    rewrite List.filter_app.
    fold (wait_actions
            (foldl (λ acc unit,
                      add_step acc
                        (mk_step UnitUpgradeStep
                           ("Upgrade software packages on unit "
                            +:+ AppUtils.unit_name unit)
                           false (Some (UpgradePackages (AppUtils.unit_name unit) None))
                           []))
               (mk_step PreUpgradeStep
                  ("Upgrade software packages of '" +:+ name app
                   +:+ "' from the current APT repositories") true None [])
               (units app))).
    by rewrite wait_actions_upgrade_packages.
Qed.
End application_plans.

(** The plans of keystone-ldap, keystone and cinder towards victoria. *)
Lemma generate_upgrade_plan_by_role_witness :
  sub_steps (generate_upgrade_plan codenames keystone_ldap victoria test_model) =
    [refresh_step keystone_ldap "ussuri/stable"; switch_step keystone_ldap "victoria/stable"]
  ∧ wait_actions (generate_upgrade_plan codenames keystone_ldap victoria test_model) = []
  ∧ wait_actions (generate_upgrade_plan codenames keystone victoria test_model) =
      [WaitForActiveIdle 1800 None None false]
  ∧ wait_actions (generate_upgrade_plan codenames cinder victoria test_model) =
      [WaitForActiveIdle 300 (Some ["cinder"]) None false].
Proof.
  split; [| split; [| split]].
  - apply (proj1 (generate_upgrade_plan_by_role codenames keystone_ldap victoria
                    test_model) eq_refl).
  - apply (proj1 (generate_upgrade_plan_by_role codenames keystone_ldap victoria
                    test_model) eq_refl).
  - apply (proj1 (proj2 (generate_upgrade_plan_by_role codenames keystone victoria
                           test_model)) eq_refl).
    apply list_elem_of_further, list_elem_of_further, list_elem_of_here.
  - apply (proj2 (proj2 (generate_upgrade_plan_by_role codenames cinder victoria
                           test_model)) eq_refl).
    intros Hin.
    repeat (apply elem_of_cons in Hin as [Hin | Hin]; [discriminate Hin |]).
    by apply elem_of_nil in Hin.
Defined.

Section aggregate_plans.
Variable generate : OpenStackApplication → OpenStackRelease → result Step.

Lemma add_steps_add_step (group plan : Step) (plans : list Step) :
  add_steps (add_step group plan) plans = add_steps group (plan :: plans).
Proof. unfold add_step, add_steps. simpl. by rewrite <- app_assoc. Qed.

Lemma add_steps_add_steps (group : Step) (plans1 plans2 : list Step) :
  add_steps (add_steps group plans1) plans2 = add_steps group (plans1 ++ plans2).
Proof. unfold add_steps. simpl. by rewrite <- app_assoc. Qed.

Lemma add_steps_nil (group : Step) : add_steps group [] = group.
Proof. destruct group. unfold add_steps. simpl. by rewrite app_nil_r. Qed.

(** The loop over two runs of applications is the loop over the first,
    followed by the loop over the second. *)
Lemma create_upgrade_group_loop_app apps1 apps2 target group :
  create_upgrade_group_loop generate (apps1 ++ apps2) target group =
    match create_upgrade_group_loop generate apps1 target group with
    | Ok group' => create_upgrade_group_loop generate apps2 target group'
    | Raise e => Raise e
    end.
Proof.
  revert group. induction apps1 as [| a apps1 IH]; intros group; simpl; [done |].
  destruct (generate a target) as [plan | e]; [apply IH |].
  destruct e; first [apply IH | done].
Qed.

(** When every application generates a plan the group gets them all. *)
Lemma create_upgrade_group_loop_all apps plans target group :
  Forall2 (λ a plan, generate a target = Ok plan) apps plans →
  create_upgrade_group_loop generate apps target group = Ok (add_steps group plans).
Proof.
  intros Hall. revert group.
  induction Hall as [| a plan apps plans Ha _ IH]; intros group; simpl.
  - by rewrite add_steps_nil.
  - rewrite Ha, IH. by rewrite add_steps_add_step.
Qed.

(** Plans and Halts alone never stop the loop. *)
Lemma create_upgrade_group_loop_no_error apps target group :
  Forall (λ a, (∃ plan, generate a target = Ok plan)
               ∨ generate a target = Raise HaltUpgradePlanGeneration) apps →
  ∃ group', create_upgrade_group_loop generate apps target group = Ok group'.
Proof.
  intros Hall. revert group.
  induction Hall as [| a apps [[plan Ha] | Ha] _ IH]; intros group; simpl.
  - eauto.
  - rewrite Ha. apply IH.
  - rewrite Ha. apply IH.
Qed.

(** C5: when the generation of one application raises the Halt and that
    of every other selected application yields a plan, the group is
    returned and holds exactly those other plans, in order; when the
    generation of a selected application raises another exception, and
    none did before it, [create_upgrade_group] raises that exception. *)
Theorem create_upgrade_group_halt_and_failure
    (before after : list OpenStackApplication) (app : OpenStackApplication)
    (target : OpenStackRelease) (description : string)
    (filter_function : OpenStackApplication → bool) :
  (∀ plans,
      generate app target = Raise HaltUpgradePlanGeneration →
      Forall2 (λ a plan, generate a target = Ok plan)
        (List.filter filter_function (before ++ after)) plans →
      create_upgrade_group generate (before ++ app :: after) target description
        filter_function =
        Ok (mk_step UpgradePlan description false None plans))
  ∧ (∀ e,
      generate app target = Raise e →
      e ≠ HaltUpgradePlanGeneration →
      filter_function app = true →
      Forall (λ a, (∃ plan, generate a target = Ok plan)
                   ∨ generate a target = Raise HaltUpgradePlanGeneration)
        (List.filter filter_function before) →
      create_upgrade_group generate (before ++ app :: after) target description
        filter_function = Raise e).
Proof.
  split.
  - intros plans Hhalt Hall. unfold create_upgrade_group.
    rewrite List.filter_app in Hall.
    apply Forall2_app_inv_l in Hall as (plans1 & plans2 & H1 & H2 & ->).
    rewrite List.filter_app, create_upgrade_group_loop_app.
    rewrite (create_upgrade_group_loop_all _ plans1) by done.
    simpl List.filter. destruct (filter_function app); simpl.
    + rewrite Hhalt.
      rewrite (create_upgrade_group_loop_all _ plans2) by done.
      by rewrite add_steps_add_steps.
    + rewrite (create_upgrade_group_loop_all _ plans2) by done.
      by rewrite add_steps_add_steps.
  - intros e He Hne Hsel Hbefore. unfold create_upgrade_group.
    rewrite List.filter_app, create_upgrade_group_loop_app.
    destruct (create_upgrade_group_loop_no_error _ target
                (mk_step UpgradePlan description false None []) Hbefore)
      as [group' ->].
    simpl List.filter. rewrite Hsel. simpl. rewrite He. by destruct e.
Qed.

Variable codenames : list string.
Variable supported : gmap string (list OpenStackRelease).

(** C8: a generated plan of the deployment starts with the sequential
    step that verifies that the whole deployment is idle, raising when it
    is blocked, and with the sequential backup step, in this order; the
    group of the principal applications of the control plane and the
    group of its subordinate applications follow; and such a plan is
    generated whenever the target resolves and both groups are built. *)
Theorem generate_plan_starts_with_checks
    {Namespace : Type} (analysis_result : Analysis) (args : Namespace) :
  (∀ plan,
      generate_plan generate codenames supported analysis_result args = Ok plan →
      ∃ target principals subordinates,
        determine_upgrade_target codenames supported
          (current_cloud_os_release analysis_result)
          (current_cloud_series analysis_result) = Ok target
        ∧ create_upgrade_group generate (apps_control_plane analysis_result) target
            "Control Plane principal(s) upgrade plan"
            (λ app, negb (is_subordinate app)) = Ok principals
        ∧ create_upgrade_group generate (apps_control_plane analysis_result) target
            "Control Plane subordinate(s) upgrade plan"
            (λ app, is_subordinate app) = Ok subordinates
        ∧ sub_steps plan = [verify_idle_step; backup_step; principals; subordinates])
  ∧ (∀ target principals subordinates,
      determine_upgrade_target codenames supported
        (current_cloud_os_release analysis_result)
        (current_cloud_series analysis_result) = Ok target →
      create_upgrade_group generate (apps_control_plane analysis_result) target
        "Control Plane principal(s) upgrade plan"
        (λ app, negb (is_subordinate app)) = Ok principals →
      create_upgrade_group generate (apps_control_plane analysis_result) target
        "Control Plane subordinate(s) upgrade plan"
        (λ app, is_subordinate app) = Ok subordinates →
      ∃ plan,
        generate_plan generate codenames supported analysis_result args = Ok plan
        ∧ sub_steps plan = [verify_idle_step; backup_step; principals; subordinates])
  ∧ (kind verify_idle_step = PreUpgradeStep
     ∧ parallel verify_idle_step = false
     ∧ coro verify_idle_step = Some (WaitForActiveIdle 11 None (Some 10%Z) true))
  ∧ (kind backup_step = PreUpgradeStep
     ∧ parallel backup_step = false
     ∧ coro backup_step = Some Backup).
Proof.
  split; [| split; [| done]].
  - intros plan. unfold generate_plan.
    destruct (determine_upgrade_target _ _ _ _) as [target | e] eqn:Ht; [| done].
    destruct (create_upgrade_group _ _ _ "Control Plane principal(s) upgrade plan" _)
      as [principals | e] eqn:Hp; [| done].
    destruct (create_upgrade_group _ _ _ "Control Plane subordinate(s) upgrade plan" _)
      as [subordinates | e] eqn:Hs; [| done].
    intros [= <-]. by exists target, principals, subordinates.
  - intros target principals subordinates Htarget Hp Hs.
    unfold generate_plan. rewrite Htarget, Hp, Hs. eauto.
Qed.
End aggregate_plans.

(** [test_create_upgrade_plan_HaltUpgradePlanGeneration] and
    [test_create_upgrade_plan_failed]: a single application that halts
    leaves an empty group, and one that fails makes the call fail. *)
Example test_create_upgrade_plan_HaltUpgradePlanGeneration :
  create_upgrade_group sample_generate [cinder] victoria "test" (λ _, true) =
    Ok (mk_step UpgradePlan "test" false None []).
Proof. reflexivity. Qed.

Example test_create_upgrade_plan_failed :
  create_upgrade_group sample_generate [broken] victoria "test" (λ _, true) =
    Raise (Other "test").
Proof. reflexivity. Qed.

(** A group in which cinder halts, and one in which an application fails. *)
Lemma create_upgrade_group_halt_and_failure_witness :
  create_upgrade_group sample_generate [keystone; cinder; keystone_ldap] victoria "test"
    (λ _, true) =
    Ok (mk_step UpgradePlan "test" false None
          [generate_upgrade_plan codenames keystone victoria test_model;
           generate_upgrade_plan codenames keystone_ldap victoria test_model])
  ∧ create_upgrade_group sample_generate [keystone; cinder; broken; keystone_ldap]
      victoria "test" (λ _, true) = Raise (Other "test").
Proof.
  split.
  - apply (proj1 (create_upgrade_group_halt_and_failure sample_generate
                    [keystone] [keystone_ldap] cinder victoria "test" (λ _, true))).
    + reflexivity.
    + apply List.Forall2_cons; [reflexivity |].
      apply List.Forall2_cons; [reflexivity |]. apply List.Forall2_nil.
  - apply (proj2 (create_upgrade_group_halt_and_failure sample_generate
                    [keystone; cinder] [keystone_ldap] broken victoria "test" (λ _, true))).
    + reflexivity.
    + discriminate.
    + reflexivity.
    + apply List.Forall_cons; [left; eexists; reflexivity |].
      apply List.Forall_cons; [right; reflexivity |]. apply List.Forall_nil.
Defined.

(** The plan of the deployment of the tests. *)
Lemma generate_plan_starts_with_checks_witness :
  ∃ plan principals subordinates,
    generate_plan sample_generate codenames supported analysis_result () = Ok plan
    ∧ sub_steps plan = [verify_idle_step; backup_step; principals; subordinates]
    ∧ description principals = "Control Plane principal(s) upgrade plan"
    ∧ description subordinates = "Control Plane subordinate(s) upgrade plan".
Proof.
  destruct (proj1 (proj2 (generate_plan_starts_with_checks sample_generate codenames
                            supported analysis_result ()))
              victoria
              (mk_step UpgradePlan "Control Plane principal(s) upgrade plan" false None
                 [generate_upgrade_plan codenames keystone victoria test_model])
              (mk_step UpgradePlan "Control Plane subordinate(s) upgrade plan" false None
                 [generate_upgrade_plan codenames keystone_ldap victoria test_model])
              eq_refl eq_refl eq_refl) as (plan & Hplan & Hsteps).
  eexists plan, _, _. split; [exact Hplan |]. split; [exact Hsteps |].
  split; reflexivity.
Defined.

End PlanSpec.

(** ** More about the Python built-ins *)
Module PyMore.
Import PyFacts.

Lemma append_nil_r (s : string) : s +:+ "" = s.
Proof.
  induction s as [| x s IH]; [done |].
  change (String x s +:+ "") with (String x (s +:+ "")). by rewrite IH.
Qed.

Lemma rev_app_append (s1 s2 : string) : String.rev_app s1 s2 = String.rev s1 +:+ s2.
Proof.
  revert s2. induction s1 as [| x s1 IH]; intros s2; [done |].
  unfold String.rev. simpl. rewrite (IH (String x s2)), (IH (String x "")).
  by rewrite append_assoc.
Qed.

Lemma rev_cons (x : ascii) (s : string) :
  String.rev (String x s) = String.rev s +:+ String x "".
Proof. unfold String.rev at 1. simpl. apply rev_app_append. Qed.

Lemma count_append (c : ascii) (s1 s2 : string) :
  Py.count c (s1 +:+ s2) = (Py.count c s1 + Py.count c s2)%nat.
Proof.
  induction s1 as [| x s1 IH]; [done |].
  change (String x s1 +:+ s2) with (String x (s1 +:+ s2)). simpl. rewrite IH. lia.
Qed.

Lemma count_rev (c : ascii) (s : string) : Py.count c (String.rev s) = Py.count c s.
Proof.
  induction s as [| x s IH]; [done |].
  rewrite rev_cons, count_append, IH. simpl. lia.
Qed.

Lemma split_go_nonempty (c : ascii) (cur s : string) : Py.split_go c cur s ≠ [].
Proof.
  revert cur. induction s as [| x s IH]; intros cur; simpl; [done |].
  case_decide; [done | apply IH].
Qed.

Lemma join_cons (sep h : string) (t : list string) :
  t ≠ [] → Py.join sep (h :: t) = h +:+ sep +:+ Py.join sep t.
Proof. by destruct t. Qed.

Lemma join_split_go (c : ascii) (cur s : string) :
  Py.join (String c "") (Py.split_go c cur s) = String.rev cur +:+ s.
Proof.
  revert cur. induction s as [| x s IH]; intros cur; simpl.
  - by rewrite append_nil_r.
  - case_decide as Hx.
    + subst x. rewrite join_cons by apply split_go_nonempty. by rewrite IH.
    + rewrite IH, rev_cons. by rewrite append_assoc.
Qed.

(** [sep.join(s.split(sep)) == s] *)
Lemma join_split (c : ascii) (s : string) :
  Py.join (String c "") (Py.split c s) = s.
Proof. unfold Py.split. by rewrite join_split_go. Qed.

Lemma split_go_length (c : ascii) (cur s : string) :
  length (Py.split_go c cur s) = S (Py.count c s).
Proof.
  revert cur. induction s as [| x s IH]; intros cur; simpl; [done |].
  case_decide; simpl; by rewrite IH.
Qed.

(** [len(s.split(sep)) == s.count(sep) + 1] *)
Lemma split_length (c : ascii) (s : string) :
  length (Py.split c s) = S (Py.count c s).
Proof. apply split_go_length. Qed.

Lemma split_go_fields (c : ascii) (cur s : string) :
  Py.count c cur = 0%nat →
  Forall (λ field, Py.count c field = 0%nat) (Py.split_go c cur s).
Proof.
  revert cur. induction s as [| x s IH]; intros cur Hcur; simpl.
  - apply List.Forall_cons; [by rewrite count_rev | apply List.Forall_nil].
  - case_decide as Hx.
    + apply List.Forall_cons; [by rewrite count_rev | by apply IH].
    + apply IH. simpl. by rewrite decide_False.
Qed.

(** No field of a split holds the separator. *)
Lemma split_fields (c : ascii) (s : string) :
  Forall (λ field, Py.count c field = 0%nat) (Py.split c s).
Proof. by apply split_go_fields. Qed.

(** The first field of a split is the part of the string before the first
    separator. *)
Lemma split_head (c : ascii) (s : string) :
  ∃ first rest,
    Py.split c s = first :: rest
    ∧ Py.count c first = 0%nat
    ∧ (rest = [] ∧ s = first
       ∨ rest ≠ [] ∧ s = first +:+ String c (Py.join (String c "") rest)).
Proof.
  pose proof (join_split c s) as Hjoin. pose proof (split_fields c s) as Hfields.
  destruct (Py.split c s) as [| first rest] eqn:Hsplit.
  - by apply split_go_nonempty in Hsplit.
  - exists first, rest. split; [done |].
    apply Forall_cons in Hfields as [Hfirst _]. split; [done |].
    destruct rest as [| second rest]; [left; done |].
    right. split; [done |]. rewrite join_cons in Hjoin by done. done.
Qed.
End PyMore.

(** ** More about cou/apps/app.py *)
Module AppFacts.
Import Openstack App AppSpec Fixtures PyFacts PyMore.

(** X1: [_get_os_origin] returns the value of openstack-origin as soon as
    that option is set, even if it has no value and source has one; it
    turns to source only when openstack-origin is unset or empty; and it
    returns the empty string and logs one warning when neither is set. *)
Theorem os_origin_priority (app_name : string) (cfg : gmap string (gmap string string)) :
  (∀ d, cfg !! "openstack-origin" = Some d → d ≠ ∅ →
        _get_os_origin app_name cfg = (default "" (d !! "value"), []))
  ∧ ((cfg !! "openstack-origin" = None ∨ cfg !! "openstack-origin" = Some ∅) →
     (∀ d, cfg !! "source" = Some d → d ≠ ∅ →
           _get_os_origin app_name cfg = (default "" (d !! "value"), []))
     ∧ ((cfg !! "source" = None ∨ cfg !! "source" = Some ∅) →
        _get_os_origin app_name cfg = ("", [WarnNoOrigin app_name]))).
Proof.
  unfold _get_os_origin. simpl. split.
  - intros d -> Hd. by rewrite decide_False.
  - intros Hfirst.
    assert (Hskip : match cfg !! "openstack-origin" with
                    | Some d => d = ∅
                    | None => True
                    end).
    { destruct Hfirst as [-> | ->]; done. }
    split.
    + intros d Hs Hd. destruct (cfg !! "openstack-origin") as [d0 |].
      * rewrite decide_True by done. rewrite Hs. by rewrite decide_False.
      * rewrite Hs. by rewrite decide_False.
    + intros Hsecond. destruct (cfg !! "openstack-origin") as [d0 |].
      * rewrite decide_True by done. destruct Hsecond as [-> | ->]; [done |].
        by rewrite decide_True.
      * destruct Hsecond as [-> | ->]; [done |]. by rewrite decide_True.
Qed.

(** The three cases on the configurations of the fixtures. *)
Lemma os_origin_priority_witness :
  _get_os_origin "keystone" config_both = ("cloud:focal-victoria", [])
  ∧ _get_os_origin "keystone" config_no_value = ("", [])
  ∧ _get_os_origin "keystone" config_source = ("distro", [])
  ∧ _get_os_origin "keystone" ∅ = ("", [WarnNoOrigin "keystone"]).
Proof.
  assert (Hset : ∀ key (v : string), ({[ key := v ]} : gmap string string) ≠ ∅).
  { intros key v Hempty. apply (f_equal (λ m, m !! key)) in Hempty.
    rewrite lookup_singleton_eq, lookup_empty in Hempty. discriminate Hempty. }
  split; [| split; [| split]].
  - etrans; [apply (proj1 (os_origin_priority "keystone" config_both)
                      {[ "value" := "cloud:focal-victoria" ]});
             [reflexivity | apply Hset] | reflexivity].
  - etrans; [apply (proj1 (os_origin_priority "keystone" config_no_value)
                      {[ "default" := "distro" ]});
             [reflexivity | apply Hset] | reflexivity].
  - etrans; [apply (proj1 (proj2 (os_origin_priority "keystone" config_source)
                             (or_intror eq_refl))
                      {[ "value" := "distro" ]});
             [reflexivity | apply Hset] | reflexivity].
  - apply (proj2 (proj2 (os_origin_priority "keystone" ∅)
                    (or_introl (lookup_empty _)))).
    left. apply lookup_empty.
Defined.

(** X5: [__eq__] is an equivalence on applications: reflexive, symmetric
    and transitive. *)
Theorem application_eq_equivalence :
  (∀ a, eq a a = true)
  ∧ (∀ a b, eq a b = eq b a)
  ∧ (∀ a b c, eq a b = true → eq b c = true → eq a c = true).
Proof.
  unfold eq. split; [| split].
  - intros a. by rewrite !bool_decide_eq_true_2.
  - intros a b.
    rewrite (bool_decide_ext (name b = name a) (name a = name b)) by done.
    by rewrite (bool_decide_ext (charm b = charm a) (charm a = charm b)).
  - intros a b c.
    rewrite !andb_true_iff, !bool_decide_eq_true.
    intros [Hn1 Hc1] [Hn2 Hc2]. split; congruence.
Qed.

(** Three keystones that differ in their units only. *)
Lemma application_eq_equivalence_witness :
  eq app_agreeing app_unresolved = true.
Proof.
  apply (proj2 (proj2 application_eq_equivalence) app_agreeing app_mismatched
           app_unresolved); reflexivity.
Defined.

(** X6: the hash of an application depends on the concatenation of its name
    and its charm only, whatever Python's hash of a string is; so two
    applications that [__eq__] tells apart can have the same hash for every
    such hash. *)
Theorem application_hash_by_concatenation :
  (∀ (str_hash : string → Z) a b,
      name a +:+ charm a = name b +:+ charm b →
      hash str_hash a = hash str_hash b)
  ∧ ∃ a b, eq a b = false ∧ ∀ str_hash : string → Z, hash str_hash a = hash str_hash b.
Proof.
  split.
  - intros str_hash a b Hcat. unfold hash. by rewrite Hcat.
  - exists (keystone_with "nova-" "compute" [] ∅), (keystone_with "nova" "-compute" [] ∅).
    split; [reflexivity |]. intros str_hash. reflexivity.
Qed.

(** The applications nova- of charm compute and nova of charm -compute. *)
Lemma application_hash_by_concatenation_witness :
  eq (keystone_with "nova-" "compute" [] ∅) (keystone_with "nova" "-compute" [] ∅) = false
  ∧ hash (λ s, Z.of_nat (String.length s)) (keystone_with "nova-" "compute" [] ∅)
    = hash (λ s, Z.of_nat (String.length s)) (keystone_with "nova" "-compute" [] ∅).
Proof.
  split; [reflexivity |].
  apply (proj1 application_hash_by_concatenation). reflexivity.
Defined.

Section construction.
Variable extract_charm_name_from_url : string → string.
Variable lookup : string → string → list OpenStackRelease.

Lemma post_init_unit_exact app_name charm_name st k ustatus acc :
  status_lookup (status_units st) k = Some ustatus →
  ∃ us',
    post_init_unit lookup app_name charm_name st k acc =
      Ok (us', (acc.2 ++ unit_warning app_name (workload_version ustatus)
                           (lookup charm_name (workload_version ustatus)))%list)
    ∧ (∀ k', k ≠ k' → us' !! k' = acc.1 !! k')
    ∧ ∃ d, us' !! k = Some d
        ∧ d !! "workload_version" = Some (VStr (workload_version ustatus))
        ∧ d !! "os_version" =
            Some (resolved_os_version (lookup charm_name (workload_version ustatus)))
        ∧ ∀ key, key ≠ "workload_version" → key ≠ "os_version" →
                 d !! key = default ∅ (acc.1 !! k) !! key.
Proof.
  intros Hk. unfold post_init_unit. rewrite Hk.
  destruct (lookup charm_name (workload_version ustatus)) as [| first rest]; simpl.
  - eexists. split; [done |]. split.
    + intros k' Hne. by rewrite !units_set_lookup_ne.
    + eexists. split; [apply units_set_lookup_eq |].
      rewrite units_set_lookup_eq. simpl.
      split; [by simplify_map_eq |]. split; [by simplify_map_eq |].
      intros key H1 H2. by rewrite !lookup_insert_ne.
  - eexists. split; [by rewrite app_nil_r |]. split.
    + intros k' Hne. by rewrite !units_set_lookup_ne.
    + eexists. split; [apply units_set_lookup_eq |].
      rewrite units_set_lookup_eq. simpl.
      split; [by simplify_map_eq |]. split; [by simplify_map_eq |].
      intros key H1 H2. by rewrite !lookup_insert_ne.
Qed.

(** The warnings of a run of the loop over [keys]. *)
Lemma post_init_loop_exact app_name charm_name st keys :
  (∀ k, k ∈ keys → is_Some (status_lookup (status_units st) k)) →
  ∀ acc, ∃ us',
    post_init_loop lookup app_name charm_name st keys acc =
      Ok (us',
          (acc.2 ++ flat_map (λ k, match status_lookup (status_units st) k with
                                   | Some ustatus =>
                                       unit_warning app_name (workload_version ustatus)
                                         (lookup charm_name (workload_version ustatus))
                                   | None => []
                                   end) keys)%list)
    ∧ (∀ k, k ∉ keys → us' !! k = acc.1 !! k)
    ∧ (∀ k ustatus,
         k ∈ keys → status_lookup (status_units st) k = Some ustatus →
         ∃ d, us' !! k = Some d
           ∧ d !! "workload_version" = Some (VStr (workload_version ustatus))
           ∧ d !! "os_version" =
               Some (resolved_os_version (lookup charm_name (workload_version ustatus)))
           ∧ ∀ key, key ≠ "workload_version" → key ≠ "os_version" →
                    d !! key = default ∅ (acc.1 !! k) !! key).
Proof.
  induction keys as [| k keys IH]; intros Hkeys acc.
  - exists acc.1. simpl. rewrite app_nil_r. split; [by destruct acc |].
    split; [done |]. intros k ustatus Hk. by apply elem_of_nil in Hk.
  - destruct (Hkeys k) as [ustatus Hk]; [apply list_elem_of_here |].
    destruct (post_init_unit_exact app_name charm_name st k ustatus acc Hk)
      as (us1 & Hstep & Hother1 & d1 & Hd1 & Hwv1 & Hos1 & Hkeep1).
    destruct (IH (λ k' Hk', Hkeys k' (list_elem_of_further _ _ _ Hk'))
                (us1, (acc.2 ++ unit_warning app_name (workload_version ustatus)
                                  (lookup charm_name (workload_version ustatus)))%list))
      as (us2 & Hloop & Hother2 & Hres2).
    exists us2. simpl. rewrite Hstep, Hloop, Hk. simpl.
    split; [by rewrite <- app_assoc |]. split.
    + intros k' Hk'. apply not_elem_of_cons in Hk' as [Hne Hk'].
      rewrite (Hother2 k' Hk'). simpl. by apply Hother1.
    + intros k' ustatus' Hk' Hlook.
      destruct (decide (k' ∈ keys)) as [Hin | Hnotin].
      * destruct (Hres2 k' ustatus' Hin Hlook) as (d & Hd & Hwv & Hos & Hkeep).
        exists d. split; [done |]. split; [done |]. split; [done |].
        intros key H1 H2. rewrite (Hkeep key H1 H2). simpl.
        destruct (decide (k = k')) as [<- | Hne].
        -- rewrite Hd1. simpl. by apply Hkeep1.
        -- by rewrite (Hother1 k' Hne).
      * destruct (proj1 (elem_of_cons _ _ _) Hk') as [-> | Hk'']; [| done].
        assert (ustatus' = ustatus) as -> by congruence.
        exists d1. rewrite (Hother2 k Hnotin). simpl. done.
Qed.

Lemma status_lookup_elem (l : list (string * UnitStatus)) k v :
  status_lookup l k = Some v → (k, v) ∈ l.
Proof.
  induction l as [| [k' v'] l IH]; simpl; [done |].
  case_decide.
  - intros [= ->]. subst. apply list_elem_of_here.
  - intros Hl. apply list_elem_of_further. by apply IH.
Qed.

Lemma status_lookup_NoDup (l : list (string * UnitStatus)) k v :
  NoDup l.*1 → (k, v) ∈ l → status_lookup l k = Some v.
Proof.
  induction l as [| [k' v'] l IH]; simpl; intros Hnd Hin.
  - by apply elem_of_nil in Hin.
  - apply NoDup_cons in Hnd as [Hk' Hnd].
    destruct (proj1 (elem_of_cons _ _ _) Hin) as [[= -> ->] | Hin'].
    + by rewrite decide_True.
    + rewrite decide_False; [by apply IH |].
      intros ->. apply Hk'. apply list_elem_of_fmap. by exists (k, v).
Qed.

Lemma flat_map_keys {B} (l : list (string * UnitStatus))
    (g : string → list B) (f : string * UnitStatus → list B) :
  (∀ item, item ∈ l → g item.1 = f item) →
  flat_map g l.*1 = flat_map f l.
Proof.
  induction l as [| item l IH]; intros Hext; [done |].
  rewrite fmap_cons. simpl. rewrite (Hext item) by apply list_elem_of_here.
  rewrite IH; [done |]. intros item' Hin. apply Hext. by apply list_elem_of_further.
Qed.

(** X2: the constructor only adds to [self.units]: the units afterwards are
    those given to it and those of the status; a unit the status does not
    name is left as it was, and in every unit the keys other than
    ["workload_version"] and ["os_version"] keep their values. *)
Theorem post_init_keeps_other_entries (a : Application) :
  ∃ a' log,
    post_init extract_charm_name_from_url lookup a = Ok (a', log)
    ∧ dom (units a') = dom (units a) ∪ list_to_set (status_units (status a)).*1
    ∧ (∀ k, k ∉ (status_units (status a)).*1 → units a' !! k = units a !! k)
    ∧ (∀ k key,
         key ≠ "workload_version" → key ≠ "os_version" →
         default ∅ (units a' !! k) !! key = default ∅ (units a !! k) !! key).
Proof.
  unfold post_init.
  destruct (_get_os_origin (name a) (config a)) as [os_orig log0].
  destruct (post_init_loop_exact (name a)
              (extract_charm_name_from_url (status_charm (status a)))
              (status a) (status_units (status a)).*1
              (status_lookup_keys _) (units a, log0))
    as (us & Hloop & Hother & Hres).
  rewrite Hloop. eexists _, _. split; [done |]. simpl in *.
  assert (Hin : ∀ k, k ∈ (status_units (status a)).*1 →
                     ∃ d, us !! k = Some d
                       ∧ ∀ key, key ≠ "workload_version" → key ≠ "os_version" →
                                d !! key = default ∅ (units a !! k) !! key).
  { intros k Hk. destruct (status_lookup_keys _ k Hk) as [ustatus Hlook].
    destruct (Hres k ustatus Hk Hlook) as (d & Hd & _ & _ & Hkeep). eauto. }
  split; [| split].
  - apply set_eq. intros k.
    rewrite elem_of_union, !elem_of_dom, elem_of_list_to_set.
    destruct (decide (k ∈ (status_units (status a)).*1)) as [Hk | Hk].
    + destruct (Hin k Hk) as (d & -> & _). split; eauto.
    + rewrite (Hother k Hk). split; [eauto |]. intros [? | ?]; done.
  - exact Hother.
  - intros k key H1 H2.
    destruct (decide (k ∈ (status_units (status a)).*1)) as [Hk | Hk].
    + destruct (Hin k Hk) as (d & -> & Hkeep). simpl. by apply Hkeep.
    + by rewrite (Hother k Hk).
Qed.

(** X3: the constructor logs, in this order, the warning of
    [_get_os_origin], if any, and one warning for each unit of the status
    whose workload version is compatible with no release, in the order of
    the status; nothing else is logged. *)
Theorem post_init_log (a : Application)
    (Hkeys : NoDup (status_units (status a)).*1) :
  ∃ a',
    post_init extract_charm_name_from_url lookup a =
      Ok (a',
          ((_get_os_origin (name a) (config a)).2
           ++ flat_map (λ item,
                          unit_warning (name a) (workload_version item.2)
                            (lookup (extract_charm_name_from_url (status_charm (status a)))
                               (workload_version item.2)))
                (status_units (status a)))%list).
Proof.
  unfold post_init.
  destruct (_get_os_origin (name a) (config a)) as [os_orig log0].
  destruct (post_init_loop_exact (name a)
              (extract_charm_name_from_url (status_charm (status a)))
              (status a) (status_units (status a)).*1
              (status_lookup_keys _) (units a, log0))
    as (us & Hloop & _ & _).
  rewrite Hloop. eexists. simpl. do 3 f_equal.
  apply flat_map_keys. intros [k v] Hin. simpl.
  by rewrite (status_lookup_NoDup _ k v Hkeys Hin).
Qed.

(** X4: on an application constructed with no units of its own,
    [current_os_release] is [None] when the status has no unit, is the
    value every unit resolved to when they all resolved to the same one,
    [None] included, and raises [MismatchedOpenStackVersions] when two
    units of the status resolved differently. *)
Theorem constructed_current_os_release (a : Application)
    (Hfresh : units a = ∅)
    (Hkeys : NoDup (status_units (status a)).*1) :
  ∃ a' log,
    post_init extract_charm_name_from_url lookup a = Ok (a', log)
    ∧ (status_units (status a) = [] → current_os_release a' = (Ok VNone, []))
    ∧ (∀ v,
         status_units (status a) ≠ [] →
         (∀ k ustatus,
            (k, ustatus) ∈ status_units (status a) →
            resolved_os_version
              (lookup (extract_charm_name_from_url (status_charm (status a)))
                 (workload_version ustatus)) = v) →
         current_os_release a' = (Ok v, []))
    ∧ (∀ k1 ustatus1 k2 ustatus2,
         (k1, ustatus1) ∈ status_units (status a) →
         (k2, ustatus2) ∈ status_units (status a) →
         resolved_os_version
           (lookup (extract_charm_name_from_url (status_charm (status a)))
              (workload_version ustatus1))
         ≠ resolved_os_version
             (lookup (extract_charm_name_from_url (status_charm (status a)))
                (workload_version ustatus2)) →
         (current_os_release a').1 = Raise MismatchedOpenStackVersions).
Proof.
  unfold post_init.
  destruct (_get_os_origin (name a) (config a)) as [os_orig log0].
  destruct (post_init_loop_exact (name a)
              (extract_charm_name_from_url (status_charm (status a)))
              (status a) (status_units (status a)).*1
              (status_lookup_keys _) (units a, log0))
    as (us & Hloop & Hother & Hres).
  rewrite Hloop. eexists _, _. split; [done |]. simpl in *.
  set (charm_name := extract_charm_name_from_url (status_charm (status a))) in *.
  assert (Hunit : ∀ k ustatus,
             (k, ustatus) ∈ status_units (status a) →
             ∃ d, us !! k = Some d
               ∧ dict_get d "os_version" =
                   resolved_os_version (lookup charm_name (workload_version ustatus))).
  { intros k ustatus Hin.
    destruct (Hres k ustatus) as (d & Hd & _ & Hos & _).
    - apply list_elem_of_fmap. by exists (k, ustatus).
    - by apply status_lookup_NoDup.
    - exists d. split; [done |]. unfold dict_get. by rewrite Hos. }
  split; [| split].
  - intros Hnone. unfold current_os_release.
    rewrite os_versions_no_units; [by rewrite elements_empty |].
    simpl. apply map_eq. intros k. rewrite Hother, Hfresh; [done |].
    rewrite Hnone. apply not_elem_of_nil.
  - intros v Hsome Hall. apply current_os_release_single.
    apply os_versions_agree; simpl.
    + destruct (status_units (status a)) as [| [k ustatus] rest] eqn:Hitems; [done |].
      destruct (Hunit k ustatus) as (d & Hd & _); [apply list_elem_of_here |].
      intros Hempty. rewrite Hempty in Hd. by rewrite lookup_empty in Hd.
    + intros k d Hd.
      destruct (decide (k ∈ (status_units (status a)).*1)) as [Hk | Hk].
      * apply list_elem_of_fmap in Hk as ([k' ustatus] & -> & Hin).
        destruct (Hunit k' ustatus Hin) as (d' & Hd' & Hos). simpl in Hd.
        assert (d = d') as -> by congruence.
        rewrite Hos. by apply (Hall k').
      * rewrite (Hother k Hk), Hfresh, lookup_empty in Hd. done.
  - intros k1 ustatus1 k2 ustatus2 Hin1 Hin2 Hne.
    destruct (Hunit k1 ustatus1 Hin1) as (d1 & Hd1 & Hos1).
    destruct (Hunit k2 ustatus2 Hin2) as (d2 & Hd2 & Hos2).
    rewrite (current_os_release_two_values _
               (resolved_os_version (lookup charm_name (workload_version ustatus1)))
               (resolved_os_version (lookup charm_name (workload_version ustatus2))));
      [done | | | done].
    + apply elem_of_os_versions. by exists k1, d1.
    + apply elem_of_os_versions. by exists k2, d2.
Qed.

(** X7: the constructor sets [charm_origin] to the part of the charm URL
    before its first colon: it holds no colon, the URL starts with it, and
    what follows in the URL is nothing or starts with a colon. *)
Theorem post_init_charm_origin (a : Application) :
  ∃ a' log rest,
    post_init extract_charm_name_from_url lookup a = Ok (a', log)
    ∧ Py.count ":" (charm_origin a') = 0%nat
    ∧ status_charm (status a) = charm_origin a' +:+ rest
    ∧ (rest = "" ∨ ∃ rest', rest = String ":" rest').
Proof.
  unfold post_init.
  destruct (_get_os_origin (name a) (config a)) as [os_orig log0].
  destruct (post_init_loop_exact (name a)
              (extract_charm_name_from_url (status_charm (status a)))
              (status a) (status_units (status a)).*1
              (status_lookup_keys _) (units a, log0))
    as (us & Hloop & _ & _).
  rewrite Hloop.
  destruct (split_head ":" (status_charm (status a)))
    as (first & fields & Hsplit & Hnone & Hrest).
  rewrite Hsplit. simpl.
  destruct Hrest as [[_ Hurl] | [_ Hurl]].
  - eexists _, _, "". split; [done |]. simpl. split; [done |].
    split; [by rewrite append_nil_r | by left].
  - eexists _, _, _. split; [done |]. simpl. split; [done |].
    split; [exact Hurl | right; eauto].
Qed.
End construction.

(** A constructor given a note on keystone/0 and a unit keystone/9. *)
Lemma post_init_keeps_other_entries_witness :
  ∃ a' log,
    post_init sample_extract sample_lookup app_preset = Ok (a', log)
    ∧ units a' !! "keystone/9" = Some (unit_at "16.0.0" (VRelease train))
    ∧ default ∅ (units a' !! "keystone/0") !! "note" = Some (VStr "kept").
Proof.
  destruct (post_init_keeps_other_entries sample_extract sample_lookup app_preset)
    as (a' & log & Hok & _ & Hother & Hkeys).
  exists a', log. split; [exact Hok |]. split.
  - rewrite (Hother "keystone/9"); [reflexivity |].
    simpl. intros Hin. apply list_elem_of_singleton in Hin. discriminate Hin.
  - rewrite (Hkeys "keystone/0" "note"); [reflexivity | discriminate | discriminate].
Defined.

Lemma two_units_NoDup : NoDup ["keystone/0"; "keystone/1"].
Proof.
  apply NoDup_cons_2; [| apply NoDup_singleton].
  intros Hin. apply list_elem_of_singleton in Hin. discriminate Hin.
Defined.

(** The log of the construction of a keystone without origin and with a
    unit of unknown workload version. *)
Lemma post_init_log_witness :
  ∃ a',
    post_init sample_extract sample_lookup app_fresh =
      Ok (a', [WarnNoOrigin "keystone"; WarnNoCompatibleVersion "keystone" "0.0.2"]).
Proof.
  destruct (post_init_log sample_extract sample_lookup app_fresh two_units_NoDup)
    as [a' Hok].
  exists a'. etrans; [exact Hok | reflexivity].
Defined.

(** Keystones constructed from a status without units, with two units of
    one known version, and with a known and an unknown version. *)
Lemma constructed_current_os_release_witness :
  (∃ a' log,
      post_init sample_extract sample_lookup app_fresh_empty = Ok (a', log)
      ∧ current_os_release a' = (Ok VNone, []))
  ∧ (∃ a' log,
        post_init sample_extract sample_lookup app_fresh_same = Ok (a', log)
        ∧ current_os_release a' = (Ok (VRelease victoria), []))
  ∧ (∃ a' log,
        post_init sample_extract sample_lookup app_fresh = Ok (a', log)
        ∧ (current_os_release a').1 = Raise MismatchedOpenStackVersions).
Proof.
  split; [| split].
  - destruct (constructed_current_os_release sample_extract sample_lookup
                app_fresh_empty eq_refl (NoDup_nil_2 : NoDup []))
      as (a' & log & Hok & Hnone & _).
    exists a', log. split; [exact Hok | by apply Hnone].
  - destruct (constructed_current_os_release sample_extract sample_lookup
                app_fresh_same eq_refl two_units_NoDup)
      as (a' & log & Hok & _ & Hsame & _).
    exists a', log. split; [exact Hok |].
    apply Hsame; [discriminate |].
    intros k ustatus Hin.
    apply elem_of_cons in Hin as [[= -> ->] | Hin]; [reflexivity |].
    apply list_elem_of_singleton in Hin as [= -> ->]. reflexivity.
  - destruct (constructed_current_os_release sample_extract sample_lookup
                app_fresh eq_refl two_units_NoDup)
      as (a' & log & Hok & _ & _ & Hdiffer).
    exists a', log. split; [exact Hok |].
    apply (Hdiffer "keystone/0" {| workload_version := "17.0.1" |}
             "keystone/1" {| workload_version := "0.0.2" |}).
    + apply list_elem_of_here.
    + apply list_elem_of_further, list_elem_of_here.
    + discriminate.
Defined.
End AppFacts.

(** ** More about cou/utils/app_utils.py *)
Module AppUtilsFacts.
Import AppUtils AppUtilsSpec Fixtures PyFacts PyMore.

Lemma contains_empty (s : string) : Py.contains "" s = true.
Proof. rewrite contains_unfold. by destruct s. Qed.

(** A part of a string of a list occurs in the list joined by a separator. *)
Lemma contains_join_part (sep x y : string) (l : list string) :
  Py.contains x y = true → y ∈ l → Py.contains x (Py.join sep l) = true.
Proof.
  intros Hxy. induction l as [| z l IH]; intros Hy; [by apply elem_of_nil in Hy |].
  destruct (proj1 (elem_of_cons _ _ _) Hy) as [<- | Hin].
  - destruct l as [| z l]; [exact Hxy |].
    rewrite join_cons by done. by apply contains_app_l.
  - destruct l as [| z' l]; [by apply elem_of_nil in Hin |].
    rewrite join_cons by done. apply contains_app_r, contains_app_r. by apply IH.
Qed.

(** Stripping on the left removes characters and adds none. *)
Lemma count_lstrip_by (w2 : ascii → ascii → bool) (w3 : ascii → ascii → ascii → bool)
    (c : ascii) (s : string) :
  (Py.count c (Py.lstrip_by w2 w3 s) ≤ Py.count c s)%nat.
Proof.
  assert (Hbound : ∀ n s, (String.length s ≤ n)%nat →
                          (Py.count c (Py.lstrip_by w2 w3 s) ≤ Py.count c s)%nat).
  { intros n. induction n as [| n IH]; intros t Hlen.
    - destruct t; [done | simpl in Hlen; lia].
    - destruct t as [| x [| y [| z rest]]]; simpl in *.
      + done.
      + destruct (Py.is_whitespace x); simpl; lia.
      + destruct (Py.is_whitespace x).
        * pose proof (IH (String y "") ltac:(simpl; lia)) as Hrest. simpl in Hrest. lia.
        * destruct (w2 x y); simpl; lia.
      + destruct (Py.is_whitespace x).
        * pose proof (IH (String y (String z rest)) ltac:(simpl; lia)) as Hrest.
          simpl in Hrest. lia.
        * destruct (w2 x y).
          -- pose proof (IH (String z rest) ltac:(simpl; lia)) as Hrest.
             simpl in Hrest. lia.
          -- destruct (w3 x y z); simpl; [| lia].
             pose proof (IH rest ltac:(lia)) as Hrest. lia. }
  by apply (Hbound (String.length s)).
Qed.

Lemma count_strip (c : ascii) (s : string) :
  (Py.count c (Py.strip s) ≤ Py.count c s)%nat.
Proof.
  unfold Py.strip, Py.rstrip, Py.lstrip. rewrite count_rev.
  etrans; [apply count_lstrip_by |]. rewrite count_rev. apply count_lstrip_by.
Qed.

(** The release a key names holds no space. *)
Lemma release_of_key_no_space (key release : string) :
  release_of_key key = Some release → Py.count " " release = 0%nat.
Proof.
  unfold release_of_key. intros Hkey.
  destruct (Py.split " " key !! 4%nat) as [field |] eqn:Hfield; [| done].
  simpl in Hkey. injection Hkey as <-.
  pose proof (split_fields " " key) as Hall. rewrite Forall_lookup in Hall.
  pose proof (Hall _ _ Hfield) as Hzero. pose proof (count_strip " " field). lia.
Qed.

(** A key with fewer than four spaces names no release. *)
Lemma release_of_key_short (key : string) :
  (Py.count " " key < 4)%nat → Py.split " " key !! 4%nat = None.
Proof.
  intros Hfew. apply lookup_ge_None. rewrite split_length. lia.
Qed.

Section routine.
Context {World : Type}.
Variable model : call → World → result (gmap string string) * World.
Variable json_loads : string → option json.
Variable CEPH_RELEASES : list string.

(** X8: [upgrade_packages] runs one command on the unit, with a timeout of
    600, and fails exactly when that command does; the command always holds
    the update, dist-upgrade and autoremove, and is nothing more when the
    list of packages to hold is [None] or empty. *)
Theorem upgrade_packages_single_call
    (unit : string) (packages_to_hold : option (list string))
    (w : World) (calls : list call) :
  ∃ command,
    let c := {| call_unit := unit; call_command := command; call_timeout := 600 |} in
    upgrade_packages model unit packages_to_hold (w, calls) =
      (match (model c w).1 with Ok _ => Ok () | Raise e => Raise e end,
       ((model c w).2, (calls ++ [c])%list))
    ∧ Py.contains
        ("apt-get update && apt-get dist-upgrade "
         +:+ "-o Dpkg::Options::=--force-confnew -o Dpkg::Options::=--force-confdef"
         +:+ " -y && apt-get autoremove -y") command = true
    ∧ (packages_to_hold = None ∨ packages_to_hold = Some [] →
       command =
         "apt-get update && apt-get dist-upgrade "
         +:+ "-o Dpkg::Options::=--force-confnew -o Dpkg::Options::=--force-confdef"
         +:+ " -y && apt-get autoremove -y").
Proof.
  unfold upgrade_packages, bind, run_on_unit, ret. cbv zeta.
  lazymatch goal with
  | |- context [model {| call_unit := unit; call_command := ?cmd;
                         call_timeout := 600 |} w] => exists cmd
  end.
  split; [by destruct (model _ w) as [[res | e] w'] |].
  assert (Hself : ∀ s, Py.contains s s = true).
  { intros s. rewrite contains_unfold, prefix_refl. done. }
  split.
  - destruct packages_to_hold as [[| p ps] |]; [apply Hself | | apply Hself].
    apply contains_app_r, contains_app_r, contains_app_r, contains_app_l, Hself.
  - by intros [-> | ->].
Qed.

Lemma required_osd_release_calls unit w calls :
  (_get_required_osd_release model json_loads unit (w, calls)).2 =
    ((model (dump_call unit) w).2, (calls ++ [dump_call unit])%list).
Proof.
  unfold _get_required_osd_release, bind, run_on_unit, loads_stdout, json_get, ret, raise.
  fold (dump_call unit).
  destruct (model (dump_call unit) w) as [[res | e] w1]; simpl; [| done].
  destruct (res !! "Stdout") as [out |]; [| done].
  destruct (json_loads out) as [doc |]; [| done].
  by destruct doc.
Qed.

(** X9: [_get_required_osd_release] issues the dump query and nothing
    else, whatever happens; a failure of the query is passed on; and a
    decoded object without the key ["require_osd_release"] gives the empty
    string. *)
Theorem required_osd_release_default (unit : string) (w : World) (calls : list call) :
  (_get_required_osd_release model json_loads unit (w, calls)).2 =
    ((model (dump_call unit) w).2, (calls ++ [dump_call unit])%list)
  ∧ (∀ e, (model (dump_call unit) w).1 = Raise e →
          (_get_required_osd_release model json_loads unit (w, calls)).1 = Raise e)
  ∧ (∀ res out items,
        (model (dump_call unit) w).1 = Ok res →
        res !! "Stdout" = Some out →
        json_loads out = Some (JObj items) →
        (_get_required_osd_release model json_loads unit (w, calls)).1 =
          Ok (default (JStr "") (items_get items "require_osd_release"))
        ∧ (items_get items "require_osd_release" = None →
           (_get_required_osd_release model json_loads unit (w, calls)).1 = Ok (JStr ""))).
Proof.
  split; [apply required_osd_release_calls |].
  unfold _get_required_osd_release, bind, run_on_unit, loads_stdout, json_get, ret, raise.
  fold (dump_call unit).
  destruct (model (dump_call unit) w) as [[res | e] w1]; simpl.
  - split; [done |]. intros res' out items [= <-] -> ->. simpl.
    split; [done |]. by intros ->.
  - split; [by intros e' [= ->] | done].
Qed.

Lemma current_osd_release_calls unit w calls :
  (_get_current_osd_release model json_loads CEPH_RELEASES unit (w, calls)).2 =
    ((model (versions_call unit) w).2, (calls ++ [versions_call unit])%list).
Proof.
  unfold _get_current_osd_release, bind, run_on_unit, loads_stdout, json_get, ret, raise.
  fold (versions_call unit).
  destruct (model (versions_call unit) w) as [[res | e] w1]; simpl; [| done].
  destruct (res !! "Stdout") as [out |]; [| done].
  destruct (json_loads out) as [doc |]; [| done].
  destruct doc as [| | | | | items]; try done.
  destruct (default JNull (items_get items "osd")) as [| b | n | s | l | osd]; simpl;
    repeat case_match; done.
Qed.

(** What a returned release satisfies. *)
Lemma current_osd_release_returned unit st st' release :
  _get_current_osd_release model json_loads CEPH_RELEASES unit st = (Ok release, st') →
  Py.count " " release = 0%nat
  ∧ Py.contains release (Py.join ", " CEPH_RELEASES) = true.
Proof.
  destruct st as [w calls].
  unfold _get_current_osd_release, bind, run_on_unit, loads_stdout, json_get, ret, raise.
  destruct (model _ w) as [[res | e] w1]; simpl; [| done].
  destruct (res !! "Stdout") as [out |]; [| done].
  destruct (json_loads out) as [doc |]; [| done].
  destruct doc as [| | | | | items]; try done.
  destruct (default JNull (items_get items "osd")) as [| b | n | s | l | osd]; simpl;
    repeat case_match; try done.
  intros [= <- <-]. split.
  - apply (release_of_key_no_space s). unfold release_of_key.
    by match goal with H : Py.split _ _ !! _ = Some _ |- _ => rewrite H end.
  - by match goal with H : negb _ = false |- _ => apply negb_false_iff in H end.
Qed.

(** X10: when the answer to the versions query holds nothing under
    ["osd"], be it no such key, [null], an empty object or another value
    Python counts as false, [_get_current_osd_release] raises
    [RunUpgradeError] for the missing information. *)
Theorem current_osd_release_no_information
    (unit : string) (w w1 : World) (calls : list call) (osd : json) :
  versions_answered model json_loads unit w osd w1 →
  truthy osd = false →
  _get_current_osd_release model json_loads CEPH_RELEASES unit (w, calls) =
    (Raise (RunUpgradeError (NoOsdReleaseInformation unit)),
     (w1, (calls ++ [versions_call unit])%list)).
Proof.
  intros (res & out & items & Hrun & Hout & Hdoc & Hosd) Hfalsy.
  unfold _get_current_osd_release, bind, run_on_unit, loads_stdout, json_get, ret, raise.
  fold (versions_call unit). rewrite Hrun, Hout, Hdoc, Hosd, Hfalsy. done.
Qed.

(** X11: a single OSD entry whose key holds fewer than four spaces has no
    fifth field, and [_get_current_osd_release] raises [IndexError], not
    [RunUpgradeError]. *)
Theorem current_osd_release_short_key
    (unit : string) (w w1 : World) (calls : list call) (key : string) (count : json) :
  versions_answered model json_loads unit w (JObj [(key, count)]) w1 →
  (Py.count " " key < 4)%nat →
  _get_current_osd_release model json_loads CEPH_RELEASES unit (w, calls) =
    (Raise IndexError, (w1, (calls ++ [versions_call unit])%list)).
Proof.
  intros (res & out & items & Hrun & Hout & Hdoc & Hosd) Hfew.
  unfold _get_current_osd_release, bind, run_on_unit, loads_stdout, json_get, ret, raise.
  fold (versions_call unit). rewrite Hrun, Hout, Hdoc, Hosd. simpl.
  by rewrite (release_of_key_short key Hfew).
Qed.

(** X12: the release is looked for in the joined names of
    [CEPH_RELEASES], not among them: a single OSD entry is accepted, and its
    release returned, as soon as that release is a part of a listed name,
    and also when it is empty. *)
Theorem current_osd_release_accepts_parts
    (unit : string) (w w1 : World) (calls : list call)
    (key release : string) (count : json) :
  versions_answered model json_loads unit w (JObj [(key, count)]) w1 →
  release_of_key key = Some release →
  (release = "" ∨ ∃ listed, listed ∈ CEPH_RELEASES ∧ Py.contains release listed = true) →
  _get_current_osd_release model json_loads CEPH_RELEASES unit (w, calls) =
    (Ok release, (w1, (calls ++ [versions_call unit])%list)).
Proof.
  intros (res & out & items & Hrun & Hout & Hdoc & Hosd) Hkey Hpart.
  assert (Hknown : Py.contains release (Py.join ", " CEPH_RELEASES) = true).
  { destruct Hpart as [-> | (listed & Hin & Hsub)].
    - apply contains_empty.
    - by apply (contains_join_part _ _ listed). }
  unfold _get_current_osd_release, bind, run_on_unit, loads_stdout, json_get, ret, raise.
  fold (versions_call unit). rewrite Hrun, Hout, Hdoc, Hosd. simpl.
  unfold release_of_key in Hkey.
  destruct (Py.split " " key !! 4%nat) as [field |]; [| done].
  simpl in Hkey. injection Hkey as ->. by rewrite Hknown.
Qed.

(** X13: whatever the model and the decoder answer,
    [set_require_osd_release_option] only adds calls to the record: the dump
    query, then possibly the versions query, then possibly one command
    setting a release, which then holds no space and occurs in the joined
    [CEPH_RELEASES]. *)
Theorem set_require_osd_release_option_calls
    (unit : string) (w : World) (calls : list call) :
  ∃ new,
    (set_require_osd_release_option model json_loads CEPH_RELEASES unit (w, calls)).2.2 =
      (calls ++ new)%list
    ∧ (new = [dump_call unit]
       ∨ new = [dump_call unit; versions_call unit]
       ∨ ∃ release,
           new = [dump_call unit; versions_call unit; set_call unit release]
           ∧ Py.count " " release = 0%nat
           ∧ Py.contains release (Py.join ", " CEPH_RELEASES) = true).
Proof.
  unfold set_require_osd_release_option, bind at 1.
  pose proof (required_osd_release_calls unit w calls) as Hcalls1.
  destruct (_get_required_osd_release model json_loads unit (w, calls))
    as [[required | e] [w1 calls1]]; simpl in Hcalls1; injection Hcalls1 as _ ->.
  2: { exists [dump_call unit]. auto. }
  unfold bind at 1.
  pose proof (current_osd_release_calls unit w1 (calls ++ [dump_call unit])%list)
    as Hcalls2.
  destruct (_get_current_osd_release model json_loads CEPH_RELEASES unit
              (w1, (calls ++ [dump_call unit])%list))
    as [[release | e] [w2 calls2]] eqn:Hcurrent;
    simpl in Hcalls2; injection Hcalls2 as _ ->.
  2: { exists [dump_call unit; versions_call unit]. simpl.
       rewrite <- app_assoc. auto. }
  destruct (differs_from_str required release).
  - exists [dump_call unit; versions_call unit; set_call unit release].
    unfold bind, run_on_unit. fold (set_call unit release).
    destruct (current_osd_release_returned _ _ _ _ Hcurrent) as [Hword Hknown].
    split; [| right; right; by exists release].
    destruct (model (set_call unit release) w2) as [[res | e] w3]; simpl;
      by rewrite <- !app_assoc.
  - exists [dump_call unit; versions_call unit]. simpl.
    rewrite <- app_assoc. auto.
Qed.

(** X19: the mismatch is judged on the number of entries: an ["osd"]
    object of more than one entry makes [_get_current_osd_release] raise
    [RunUpgradeError] for mismatched releases, whatever releases the entries
    name, the same one included. *)
Theorem current_osd_release_counts_entries
    (unit : string) (w w1 : World) (calls : list call) (items : list (string * json)) :
  versions_answered model json_loads unit w (JObj items) w1 →
  (1 < length items)%nat →
  _get_current_osd_release model json_loads CEPH_RELEASES unit (w, calls) =
    (Raise (RunUpgradeError (MismatchedOsdReleases (JObj items))),
     (w1, (calls ++ [versions_call unit])%list)).
Proof.
  intros (res & out & doc & Hrun & Hout & Hdoc & Hosd) Hmany.
  unfold _get_current_osd_release, bind, run_on_unit, loads_stdout, json_get, ret, raise.
  fold (versions_call unit). rewrite Hrun, Hout, Hdoc, Hosd. simpl.
  destruct items as [| item rest]; [simpl in Hmany; lia |].
  rewrite bool_decide_eq_true_2 by done. simpl. by rewrite decide_True.
Qed.
End routine.

(** An upgrade with an empty list of packages to hold. *)
Lemma upgrade_packages_single_call_witness :
  ∃ command,
    upgrade_packages scripted_model "keystone/0" (Some []) (["done"], []) =
      (Ok (), ([], [{| call_unit := "keystone/0"; call_command := command;
                       call_timeout := 600 |}]))
    ∧ command =
        "apt-get update && apt-get dist-upgrade "
        +:+ "-o Dpkg::Options::=--force-confnew -o Dpkg::Options::=--force-confdef"
        +:+ " -y && apt-get autoremove -y".
Proof.
  destruct (upgrade_packages_single_call scripted_model "keystone/0" (Some [])
              ["done"] []) as (command & Hrun & _ & Hplain).
  exists command. split; [exact Hrun | apply Hplain; by right].
Defined.

(** A dump without the setting. *)
Lemma required_osd_release_default_witness :
  (_get_required_osd_release scripted_model (table_json_loads sample_table)
     "ceph-mon/0" (["no-setting"], [])).1 = Ok (JStr "").
Proof.
  apply (proj2 (proj2 (required_osd_release_default scripted_model
                         (table_json_loads sample_table) "ceph-mon/0"
                         ["no-setting"] []))
           {[ "Stdout" := "no-setting" ]} "no-setting" [("epoch", JNum 12)]
           eq_refl eq_refl eq_refl).
  reflexivity.
Defined.

(** The scripted model answers the versions query with the document the
    table gives for the first output of the script. *)
Lemma scripted_versions_answered (out : string) (rest : list string)
    (items : list (string * json)) :
  table_json_loads sample_table out = Some (JObj items) →
  versions_answered scripted_model (table_json_loads sample_table) "ceph-mon/0"
    (out :: rest) (default JNull (items_get items "osd")) rest.
Proof. intros Hdoc. exists {[ "Stdout" := out ]}, out, items. by repeat split. Defined.

(** An answer without OSDs. *)
Lemma current_osd_release_no_information_witness :
  _get_current_osd_release scripted_model (table_json_loads sample_table)
    sample_ceph_releases "ceph-mon/0" (["no-osd"], []) =
    (Raise (RunUpgradeError (NoOsdReleaseInformation "ceph-mon/0")),
     ([], [versions_call "ceph-mon/0"])).
Proof.
  apply (current_osd_release_no_information scripted_model
           (table_json_loads sample_table) sample_ceph_releases
           "ceph-mon/0" ["no-osd"] [] [] JNull).
  - apply (scripted_versions_answered "no-osd" [] _ eq_refl).
  - reflexivity.
Defined.

(** An entry whose key is the bare name of the release. *)
Lemma current_osd_release_short_key_witness :
  _get_current_osd_release scripted_model (table_json_loads sample_table)
    sample_ceph_releases "ceph-mon/0" (["short"], []) =
    (Raise IndexError, ([], [versions_call "ceph-mon/0"])).
Proof.
  apply (current_osd_release_short_key scripted_model
           (table_json_loads sample_table) sample_ceph_releases
           "ceph-mon/0" ["short"] [] [] "octopus" (JNum 3)).
  - apply (scripted_versions_answered "short" [] _ eq_refl).
  - simpl. lia.
Defined.

(** An entry on a release named oct. *)
Lemma current_osd_release_accepts_parts_witness :
  _get_current_osd_release scripted_model (table_json_loads sample_table)
    sample_ceph_releases "ceph-mon/0" (["part"], []) =
    (Ok "oct", ([], [versions_call "ceph-mon/0"])).
Proof.
  apply (current_osd_release_accepts_parts scripted_model
           (table_json_loads sample_table) sample_ceph_releases
           "ceph-mon/0" ["part"] [] []
           "ceph version 15.2.17 (8a82819d) oct (stable)" "oct" (JNum 3)).
  - apply (scripted_versions_answered "part" [] _ eq_refl).
  - reflexivity.
  - right. exists "octopus". split; [| reflexivity].
    apply list_elem_of_further, list_elem_of_here.
Defined.

(** Two builds of octopus. *)
Lemma current_osd_release_counts_entries_witness :
  release_of_key octopus_key = release_of_key octopus_older_key
  ∧ _get_current_osd_release scripted_model (table_json_loads sample_table)
      sample_ceph_releases "ceph-mon/0" (["builds"], []) =
      (Raise (RunUpgradeError
                (MismatchedOsdReleases
                   (JObj [(octopus_key, JNum 2); (octopus_older_key, JNum 1)]))),
       ([], [versions_call "ceph-mon/0"])).
Proof.
  split; [reflexivity |].
  apply (current_osd_release_counts_entries scripted_model
           (table_json_loads sample_table) sample_ceph_releases
           "ceph-mon/0" ["builds"] [] []
           [(octopus_key, JNum 2); (octopus_older_key, JNum 1)]).
  - apply (scripted_versions_answered "builds" [] _ eq_refl).
  - simpl. lia.
Defined.

(** X14: the name of every unit occurs in the string [stringify_units]
    returns, and no unit gives the empty string. *)
Theorem stringify_units_holds_every_name (units : list Unit) :
  (∀ u, u ∈ units → Py.contains (unit_name u) (stringify_units units) = true)
  ∧ (units = [] → stringify_units units = "").
Proof.
  split; [| by intros ->].
  intros u Hu. unfold stringify_units. apply contains_join.
  rewrite sorted_permutation. apply list_elem_of_fmap. by exists u.
Qed.

(** Two units. *)
Lemma stringify_units_holds_every_name_witness :
  Py.contains "keystone/1"
    (stringify_units [unit_named "keystone/1"; unit_named "keystone/0"]) = true.
Proof.
  apply (proj1 (stringify_units_holds_every_name
                  [unit_named "keystone/1"; unit_named "keystone/0"])
           (unit_named "keystone/1")).
  apply list_elem_of_here.
Defined.
End AppUtilsFacts.

(** ** More about the plans expected by the tests *)
Module PlanFacts.
Import Openstack Steps Plan PlanSpec Fixtures.

Lemma leaf_or_group_unfold (s : Step) :
  leaf_or_group s =
    match coro s, sub_steps s with
    | Some _, _ :: _ => false
    | _, _ => true
    end && forallb leaf_or_group (sub_steps s).
Proof. by destruct s. Qed.

Lemma parallel_foldl_add_step {A} (f : A → Step) (l : list A) (acc : Step) :
  parallel (foldl (λ acc x, add_step acc (f x)) acc l) = parallel acc.
Proof. revert acc. induction l as [| x l IH]; intros acc; simpl; [done | by rewrite IH]. Qed.

Section expected_plans.
Variable codenames : list string.

(** X15: the plan expected of a principal application has seven steps: a
    parallel group without action that holds one leaf per unit, in the
    order of the units, followed by six sequential leaves that each hold an
    action. *)
Theorem principal_plan_structure
    (app : OpenStackApplication) (target : OpenStackRelease) (model : Model) :
  ∃ packages rest,
    sub_steps (generate_expected_upgrade_plan_principal codenames app target model) =
      packages :: rest
    ∧ parallel packages = true
    ∧ coro packages = None
    ∧ sub_steps packages = unit_step <$> units app
    ∧ length rest = 6%nat
    ∧ Forall (λ s, parallel s = false ∧ sub_steps s = [] ∧ is_Some (coro s)) rest.
Proof.
  unfold generate_expected_upgrade_plan_principal. simpl.
  eexists _, _. split; [reflexivity |].
  split; [| split; [| split; [| split]]].
  - apply (parallel_foldl_add_step unit_step).
  - apply (coro_foldl_add_step unit_step).
  - apply (sub_steps_foldl_add_step unit_step).
  - done.
  - repeat (apply List.Forall_cons; [try case_decide; simpl; by eauto |]).
    apply List.Forall_nil.
Qed.

(** X16: the actions of the plan expected of a principal application, in
    order: the package upgrade of every unit, the refresh of the charm on the
    channel of the release before the target, the reset of
    action-managed-upgrade, the switch to the channel of the target, the
    change of the origin setting, a wait, and the check of the upgrade. *)
Theorem principal_plan_actions
    (app : OpenStackApplication) (target : OpenStackRelease) (model : Model) :
  ∃ wait,
    actions (generate_expected_upgrade_plan_principal codenames app target model) =
      (((λ unit, UpgradePackages (AppUtils.unit_name unit) None) <$> units app)
       ++ [UpgradeCharm (name app)
            (release_str codenames (previous_release target) +:+ "/stable") None;
          SetApplicationConfig (name app) "action-managed-upgrade" (CBool false);
          UpgradeCharm (name app) (codename codenames target +:+ "/stable") None;
          SetApplicationConfig (name app) (origin_setting app)
            (CStr ("cloud:focal-" +:+ codename codenames target));
           wait;
           CheckUpgrade (name app) target])%list
    ∧ is_wait wait = true.
Proof.
  unfold generate_expected_upgrade_plan_principal.
  rewrite actions_unfold. simpl.
  rewrite (actions_unfold (foldl _ _ _)).
  rewrite (coro_foldl_add_step unit_step), (sub_steps_foldl_add_step unit_step). simpl.
  assert (Hunits : concat (actions <$> (unit_step <$> units app)) =
                   (λ unit, UpgradePackages (AppUtils.unit_name unit) None) <$> units app).
  { induction (units app) as [| u l IH]; [done |]. rewrite !fmap_cons. simpl.
    by rewrite IH. }
  rewrite Hunits. case_decide; eexists; split; reflexivity.
Qed.

(** X17: the steps expected of a subordinate application are, in order,
    among the steps expected of a principal application of the same name and
    target, and both plans carry the same description. *)
Theorem subordinate_plan_within_principal
    (app : OpenStackApplication) (target : OpenStackRelease) (model : Model) :
  sublist
    (sub_steps (generate_expected_upgrade_plan_subordinate codenames app target model))
    (sub_steps (generate_expected_upgrade_plan_principal codenames app target model))
  ∧ description (generate_expected_upgrade_plan_subordinate codenames app target model)
    = description (generate_expected_upgrade_plan_principal codenames app target model).
Proof.
  split; [| done].
  unfold generate_expected_upgrade_plan_subordinate,
    generate_expected_upgrade_plan_principal. simpl.
  apply sublist_cons, sublist_skip, sublist_cons, sublist_skip, sublist_nil_l.
Qed.

(** X18: in the plans expected of principal and subordinate applications
    no node holds both an action and child steps. *)
Theorem expected_plans_leaf_or_group
    (app : OpenStackApplication) (target : OpenStackRelease) (model : Model) :
  leaf_or_group (generate_expected_upgrade_plan_principal codenames app target model)
  = true
  ∧ leaf_or_group (generate_expected_upgrade_plan_subordinate codenames app target model)
    = true.
Proof.
  split; [| done].
  unfold generate_expected_upgrade_plan_principal.
  rewrite leaf_or_group_unfold. simpl.
  rewrite (leaf_or_group_unfold (foldl _ _ _)).
  rewrite (coro_foldl_add_step unit_step), (sub_steps_foldl_add_step unit_step). simpl.
  assert (Hunits : forallb leaf_or_group (unit_step <$> units app) = true).
  { induction (units app) as [| u l IH]; [done |]. rewrite fmap_cons. simpl. exact IH. }
  rewrite Hunits. by case_decide.
Qed.
End expected_plans.
End PlanFacts.
